(** * nexus3-export: a shallow embedding of [script.py]

    The exporter mirrors a Nexus server to disk.  The embedding follows the
    source function by function:

    - the data the server sends (repositories, pages, components, assets) are
      records; [self.stats] is a [gmap] keyed by repository name;
    - the mutable world (statistics, files on disk, log file, console, the
      GET requests issued so far) is threaded through a state-and-exception
      monad [M]; [try ... except Exception] is [try_except];
    - what the program cannot control (server replies, filesystem faults, the
      wall clock) is an oracle [Env];
    - [download_asset] is an [async def]: it is cut at its suspension points
      ([session.get], every round of [async for chunk]) into a step function
      on coroutine states, and [asyncio.gather] is an event loop that first
      starts every task in order and then resumes suspended tasks in an order
      chosen by an arbitrary scheduling policy. *)

From stdpp Require Import gmap strings list fin_maps.
From Stdlib Require Import ZArith QArith Lia.
From Stdlib.Strings Require Import Byte Ascii.

Open Scope string_scope.
Open Scope list_scope.
Open Scope Z_scope.

(** ** Text produced by f-strings *)

(** An f-string is kept as its fragments: the literal pieces and the values
    interpolated into it.  Floats ([time.time()], sizes in MB) are carried as
    the exact rational they approximate; [:.2f] rounding is not modelled. *)
Inductive frag : Type :=
| Lit (s : string)      (* literal text of the f-string *)
| StrV (s : string)     (* an interpolated string *)
| IntV (z : Z)          (* an interpolated int *)
| FltV (q : Q).         (* an interpolated float, printed with [:.2f] *)

Definition text : Type := list frag.

(** Every exception the script meets is an instance of [Exception]; the only
    thing the script reads from one is [str(e)]. *)
Inductive exn : Type := Exception (msg : text).

Definition str (e : exn) : text := match e with Exception msg => msg end.

Inductive result (A : Type) : Type :=
| Ok (a : A)
| Raise (e : exn).
Arguments Ok {A} a.
Arguments Raise {A} e.

Inductive level : Type := INFO | ERROR.

(** ** Configuration (lines 18-23) *)

Definition NEXUS_URL : string := "http://localhost:8081".
Definition BASE_OUTPUT_DIR : string := "nexus_artifacts".
Definition MAX_CONCURRENT_DOWNLOADS : Z := 10.

(** ** Data received from the server *)

Record Asset : Type := {
  downloadUrl : string;
  path : string;
  fileSize : option Z       (* [None]: the key "fileSize" is absent *)
}.

Record Component : Type := { assets : list Asset }.

Record Page : Type := {
  items : list Component;
  continuationToken : option string   (* [None]: null or absent *)
}.

Record Repository : Type := { name : string }.

(** ** The transport *)

(** A response of a JSON endpoint: [response.status], and what awaiting
    [response.json()] and [response.text()] gives (either may raise). *)
Record Response (A : Type) : Type := {
  status : Z;
  json : result A;
  resp_text : result string
}.
Arguments status {A} _.
Arguments json {A} _.
Arguments resp_text {A} _.

(** A response of an asset URL: the status, the bytes that arrive, and
    whether the stream breaks (raises) after them instead of ending. *)
Record Download : Type := {
  dl_status : Z;
  dl_content : list byte;
  dl_broken : option exn
}.

(** [session.get(url)] and [session.get(url, params=params)]. *)
Inductive Request : Type :=
| Get (url : string)
| GetParams (url : string) (params : list (string * string)).

(** Filesystem operations that may raise [OSError]. *)
Inductive FsOp : Type :=
| Makedirs (dir : string)
| OpenWb (file : string)
| WriteAt (file : string) (pos : nat).

(** ** The environment: everything the script does not decide *)

Record Env : Type := {
  repositories_reply : result (Response (list Repository));
  asset_reply : string -> result Download;      (* by download URL *)
  fs_fault : FsOp -> option exn;
  clock : nat -> Q                               (* the n-th [time.time()] *)
}.

(** ** The mutable world *)

(** One entry of [self.stats] (lines 84-88). *)
Record RepoStats : Type := {
  downloaded_assets : Z;
  downloaded_size : Z;
  start_time : Q
}.

Record World : Type := {
  stats : gmap string RepoStats;          (* [self.stats] *)
  executor_max_workers : option Z;        (* [self.executor], once built *)
  fs : gmap string (list byte);           (* regular files on disk *)
  log : list (level * text);              (* nexus_export.log *)
  stdout : list text;                     (* [print] *)
  requests : list Request;                (* GETs issued on [self.session] *)
  pending_pages : list (result (Response Page));
                                          (* what the components endpoint
                                             will answer, in order; once it
                                             is used up the server is
                                             unreachable *)
  ticks : nat                             (* [time.time()] calls so far *)
}.

Definition set_stats (f : gmap string RepoStats -> gmap string RepoStats) (w : World) : World :=
  {| stats := f (stats w); executor_max_workers := executor_max_workers w;
     fs := fs w; log := log w; stdout := stdout w; requests := requests w;
     pending_pages := pending_pages w; ticks := ticks w |}.

Definition set_executor (v : option Z) (w : World) : World :=
  {| stats := stats w; executor_max_workers := v;
     fs := fs w; log := log w; stdout := stdout w; requests := requests w;
     pending_pages := pending_pages w; ticks := ticks w |}.

Definition set_fs (f : gmap string (list byte) -> gmap string (list byte)) (w : World) : World :=
  {| stats := stats w; executor_max_workers := executor_max_workers w;
     fs := f (fs w); log := log w; stdout := stdout w; requests := requests w;
     pending_pages := pending_pages w; ticks := ticks w |}.

Definition set_log (f : list (level * text) -> list (level * text)) (w : World) : World :=
  {| stats := stats w; executor_max_workers := executor_max_workers w;
     fs := fs w; log := f (log w); stdout := stdout w; requests := requests w;
     pending_pages := pending_pages w; ticks := ticks w |}.

Definition set_stdout (f : list text -> list text) (w : World) : World :=
  {| stats := stats w; executor_max_workers := executor_max_workers w;
     fs := fs w; log := log w; stdout := f (stdout w); requests := requests w;
     pending_pages := pending_pages w; ticks := ticks w |}.

Definition set_requests (f : list Request -> list Request) (w : World) : World :=
  {| stats := stats w; executor_max_workers := executor_max_workers w;
     fs := fs w; log := log w; stdout := stdout w; requests := f (requests w);
     pending_pages := pending_pages w; ticks := ticks w |}.

Definition set_pending_pages (l : list (result (Response Page))) (w : World) : World :=
  {| stats := stats w; executor_max_workers := executor_max_workers w;
     fs := fs w; log := log w; stdout := stdout w; requests := requests w;
     pending_pages := l; ticks := ticks w |}.

Definition set_ticks (n : nat) (w : World) : World :=
  {| stats := stats w; executor_max_workers := executor_max_workers w;
     fs := fs w; log := log w; stdout := stdout w; requests := requests w;
     pending_pages := pending_pages w; ticks := n |}.

(** ** The monad of straight-line code: state and exceptions *)

Definition M (A : Type) : Type := World -> World * result A.

Definition ret {A} (a : A) : M A := fun w => (w, Ok a).

Definition raise {A} (e : exn) : M A := fun w => (w, Raise e).

Definition bind {A B} (m : M A) (k : A -> M B) : M B :=
  fun w => match m w with
           | (w', Ok a) => k a w'
           | (w', Raise e) => (w', Raise e)
           end.

(** [try: body except Exception as e: handler e]. *)
Definition try_except {A} (body : M A) (handler : exn -> M A) : M A :=
  fun w => match body w with
           | (w', Ok a) => (w', Ok a)
           | (w', Raise e) => handler e w'
           end.

Declare Scope monad_scope.
Delimit Scope monad_scope with monad.
Notation "'let*' x ':=' m 'in' k" := (bind m (fun x => k))
  (at level 10, x name, m at level 100, k at level 200) : monad_scope.
Open Scope monad_scope.

(** ** Primitive effects *)

Definition print (t : text) : M unit :=
  fun w => (set_stdout (fun l => l ++ [t]) w, Ok tt).

Definition logging_error (t : text) : M unit :=
  fun w => (set_log (fun l => l ++ [(ERROR, t)]) w, Ok tt).

Definition logging_info (t : text) : M unit :=
  fun w => (set_log (fun l => l ++ [(INFO, t)]) w, Ok tt).

Definition os_path_exists (p : string) : M bool :=
  fun w => (w, Ok (bool_decide (is_Some (fs w !! p)))).

(** [os.path.getsize] raises when the file is missing. *)
Definition os_path_getsize (p : string) : M Z :=
  fun w => match fs w !! p with
           | Some content => (w, Ok (Z.of_nat (length content)))
           | None => (w, Raise (Exception [Lit "No such file or directory: "; StrV p]))
           end.

(** ** [os.path] on POSIX path strings *)

Definition startswith_slash (s : string) : bool :=
  match s with
  | String c _ => Ascii.eqb c "/"%char
  | EmptyString => false
  end.

Fixpoint endswith_slash (s : string) : bool :=
  match s with
  | EmptyString => false
  | String c EmptyString => Ascii.eqb c "/"%char
  | String _ s' => endswith_slash s'
  end.

(** One round of the loop of [posixpath.join]. *)
Definition join_step (path b : string) : string :=
  if startswith_slash b then b
  else if String.eqb path EmptyString || endswith_slash path then String.append path b
  else String.append path (String "/" b).

Definition os_path_join (a : string) (p : list string) : string :=
  fold_left join_step p a.

(** [p[:p.rfind('/') + 1]]. *)
Fixpoint upto_last_slash (p : string) : string :=
  match p with
  | EmptyString => EmptyString
  | String c s =>
      match upto_last_slash s with
      | EmptyString => if Ascii.eqb c "/"%char then String c EmptyString else EmptyString
      | h => String c h
      end
  end.

Fixpoint all_slashes (s : string) : bool :=
  match s with
  | EmptyString => true
  | String c s' => Ascii.eqb c "/"%char && all_slashes s'
  end.

Fixpoint rstrip_slash (s : string) : string :=
  match s with
  | EmptyString => EmptyString
  | String c s' =>
      match rstrip_slash s' with
      | EmptyString => if Ascii.eqb c "/"%char then EmptyString else String c EmptyString
      | r => String c r
      end
  end.

(** [posixpath.dirname]. *)
Definition os_path_dirname (p : string) : string :=
  let head := upto_last_slash p in
  if negb (String.eqb head EmptyString) && negb (all_slashes head) then rstrip_slash head
  else head.

(** ** [response.content.iter_chunked(n)] *)

Definition CHUNK_SIZE : nat := Z.to_nat 8192.

(** The body cut into pieces of [n] bytes, the last one possibly shorter. *)
Fixpoint chunked (fuel n : nat) (content : list byte) : list (list byte) :=
  match fuel with
  | O => []
  | S fuel' =>
      match content with
      | [] => []
      | _ :: _ => take n content :: chunked fuel' n (drop n content)
      end
  end.

Definition iter_chunked (n : nat) (content : list byte) : list (list byte) :=
  chunked (length content) n content.

(** ** Transport primitives *)

(** Awaiting something that either yields a value or raises. *)
Definition await {A} (r : result A) : M A :=
  match r with
  | Ok a => ret a
  | Raise e => raise e
  end.

(** The request leaves on [self.session]. *)
Definition session_send (rq : Request) : M unit :=
  fun w => (set_requests (fun l => l ++ [rq]) w, Ok tt).

(** The components endpoint answers with the next pending reply. *)
Definition next_page_reply : M (Response Page) :=
  fun w => match pending_pages w with
           | r :: rest => (set_pending_pages rest w, r)
           | [] => (w, Raise (Exception [Lit "Cannot connect to host"]))
           end.

(** ** [self.stats] *)

(** [self.stats[r]], a [KeyError] when [r] is missing. *)
Definition stats_get (r : string) : M RepoStats :=
  fun w => match stats w !! r with
           | Some s => (w, Ok s)
           | None => (w, Raise (Exception [StrV r]))
           end.

(** [self.stats[r]["downloaded_size"] += n]. *)
Definition stats_add_size (r : string) (n : Z) : M unit :=
  let* s := stats_get r in
  fun w => (set_stats (fun m => <[r := {| downloaded_assets := downloaded_assets s;
                                          downloaded_size := downloaded_size s + n;
                                          start_time := start_time s |}]> m) w, Ok tt).

(** [self.stats[r]["downloaded_assets"] += n]. *)
Definition stats_add_assets (r : string) (n : Z) : M unit :=
  let* s := stats_get r in
  fun w => (set_stats (fun m => <[r := {| downloaded_assets := downloaded_assets s + n;
                                          downloaded_size := downloaded_size s;
                                          start_time := start_time s |}]> m) w, Ok tt).

(** Python truthiness of a continuation token: [None] and the empty string are falsy. *)
Definition truthy (token : option string) : bool :=
  match token with
  | Some s => negb (String.eqb s EmptyString)
  | None => false
  end.

Definition empty_page : Page := {| items := []; continuationToken := None |}.

(** ** Coroutine states of [download_asset]

    Calling [self.download_asset(asset, repository_name)] builds a coroutine
    object; nothing runs until the event loop starts it.  The body can be
    suspended inside [session.get] (line 98) and at every round of
    [async for chunk] (line 101). *)
Inductive Task : Type :=
| Created (asset : Asset) (repository_name : string)
| AwaitingResponse (asset : Asset) (repository_name full_path : string)
| AwaitingChunk (asset : Asset) (repository_name full_path : string)
    (pos : nat) (chunks : list (list byte)) (broken : option exn)
| Finished (r : result unit).

Section WithEnv.

Variable env : Env.

Definition time_time : M Q :=
  fun w => (set_ticks (S (ticks w)) w, Ok (clock env (ticks w))).

(** [os.makedirs(d, exist_ok=True)]: directories are not part of the model
    of the disk; the call either raises or does nothing observable. *)
Definition os_makedirs (d : string) : M unit :=
  fun w => match fs_fault env (Makedirs d) with
           | Some e => (w, Raise e)
           | None => (w, Ok tt)
           end.

(** [open(p, 'wb')]: creates or truncates the file. *)
Definition open_wb (p : string) : M unit :=
  fun w => match fs_fault env (OpenWb p) with
           | Some e => (w, Raise e)
           | None => (set_fs (fun m => <[p := []]> m) w, Ok tt)
           end.

(** Bytes [chunk] placed at offset [pos] of [content] (a hole is zero
    filled, as for a write past the end of a file). *)
Definition write_at (pos : nat) (chunk content : list byte) : list byte :=
  take pos (content ++ replicate (pos - length content) x00)
    ++ chunk ++ drop (pos + length chunk) content.

(** [f.write(chunk)] on a handle whose position is [pos]. *)
Definition f_write (p : string) (pos : nat) (chunk : list byte) : M unit :=
  fun w => match fs_fault env (WriteAt p pos) with
           | Some e => (w, Raise e)
           | None =>
               (set_fs (fun m => <[p := write_at pos chunk (default [] (m !! p))]> m) w, Ok tt)
           end.

(** ** [NexusExporter.__init__] (lines 26-30) *)

Definition init (w : World) : World :=
  set_stats (fun _ => ∅) (set_executor (Some MAX_CONCURRENT_DOWNLOADS) w).

(** ** [get_repositories] (lines 39-51) *)

Definition get_repositories : M (list Repository) :=
  try_except
    (let* _ := session_send (Get (String.append NEXUS_URL "/service/rest/v1/repositories")) in
     let* response := await (repositories_reply env) in
     if Z.eqb (status response) 200 then
       await (json response)
     else
       let* error_text := await (resp_text response) in
       let* _ := logging_error [Lit "Failed to get repositories: Status "; IntV (status response);
                         Lit ", Response: "; StrV error_text] in
       raise (Exception [Lit "Failed to get repositories: Status "; IntV (status response)]))
    (fun e =>
       let* _ := logging_error (Lit "Error getting repositories: " :: str e) in
       raise e).

(** ** [get_components] (lines 53-72) *)

Definition components_params (repository_name : string) (continuation_token : option string)
  : list (string * string) :=
  let params := [("repository", repository_name)] in
  if truthy continuation_token
  then params ++ [("continuationToken", default EmptyString continuation_token)]
  else params.

Definition get_components (repository_name : string) (continuation_token : option string)
  : M Page :=
  try_except
    (let params := components_params repository_name continuation_token in
     let* _ := session_send (GetParams (String.append NEXUS_URL "/service/rest/v1/components") params) in
     let* response := next_page_reply in
     if Z.eqb (status response) 200 then
       await (json response)
     else
       let* error_text := await (resp_text response) in
       let* _ := logging_error [Lit "Failed to get components: Status "; IntV (status response);
                         Lit ", Response: "; StrV error_text] in
       ret empty_page)
    (fun e =>
       let* _ := logging_error (Lit "Error getting components: " :: str e) in
       ret empty_page).

(** ** [download_asset] (lines 74-111) *)

(** Lines 83-88. *)
Definition init_stats (repository_name : string) : M unit :=
  fun w =>
    match stats w !! repository_name with
    | Some _ => (w, Ok tt)
    | None =>
        match time_time w with
        | (w', Ok now) =>
            (set_stats (fun m => <[repository_name := {| downloaded_assets := 0;
                                                         downloaded_size := 0;
                                                         start_time := now |}]> m) w', Ok tt)
        | (w', Raise e) => (w', Raise e)
        end
    end.

(** Lines 91-92: the test that decides a skip. *)
Definition already_downloaded (asset : Asset) (full_path : string) : M bool :=
  let* found := os_path_exists full_path in
  if found then
    match fileSize asset with
    | Some expected =>
        let* size := os_path_getsize full_path in
        ret (Z.eqb size expected)
    | None => ret false
    end
  else ret false.

Definition full_path_of (repository_name relative_path : string) : string :=
  os_path_join BASE_OUTPUT_DIR [repository_name; relative_path].

(** The body of the [try] block, from the current suspension point to the
    next one. *)
Definition download_asset_body (t : Task) : M Task :=
  match t with
  | Created asset repository_name =>
      (* lines 77-98, up to the await inside [session.get] *)
      let download_url := downloadUrl asset in
      let relative_path := path asset in
      let full_path := full_path_of repository_name relative_path in
      let* _ := init_stats repository_name in
      let* skip := already_downloaded asset full_path in
      if skip then
        let* _ := print [Lit "["; StrV repository_name; Lit "] Skipping existing file: ";
                  StrV relative_path] in
        ret (Finished (Ok tt))
      else
        let* _ := os_makedirs (os_path_dirname full_path) in
        let* _ := session_send (Get download_url) in
        ret (AwaitingResponse asset repository_name full_path)
  | AwaitingResponse asset repository_name full_path =>
      (* lines 98-100 and 108-109 *)
      let* response := await (asset_reply env (downloadUrl asset)) in
      if Z.eqb (dl_status response) 200 then
        let* _ := open_wb full_path in
        ret (AwaitingChunk asset repository_name full_path 0
               (iter_chunked CHUNK_SIZE (dl_content response)) (dl_broken response))
      else
        let* _ := logging_error [Lit "Failed to download "; StrV repository_name; Lit "/";
                          StrV (path asset); Lit ": "; IntV (dl_status response)] in
        ret (Finished (Ok tt))
  | AwaitingChunk asset repository_name full_path pos chunks broken =>
      match chunks with
      | chunk :: rest =>
          (* lines 102-103 *)
          let* _ := f_write full_path pos chunk in
          let* _ := stats_add_size repository_name (Z.of_nat (length chunk)) in
          ret (AwaitingChunk asset repository_name full_path
                 (pos + length chunk) rest broken)
      | [] =>
          match broken with
          | Some e => raise e
          | None =>
              (* lines 105-107 *)
              let* _ := stats_add_assets repository_name 1 in
              let* s := stats_get repository_name in
              let* _ := print [Lit "["; StrV repository_name; Lit "] Downloaded (";
                        IntV (downloaded_assets s); Lit "): "; StrV (path asset)] in
              let* _ := logging_info [Lit "Successfully downloaded: "; StrV repository_name;
                               Lit "/"; StrV (path asset)] in
              ret (Finished (Ok tt))
          end
      end
  | Finished r => ret (Finished r)
  end.

(** Lines 110-111. *)
Definition download_asset_except (repository_name relative_path : string) (e : exn) : M Task :=
  let* _ := logging_error ([Lit "Error downloading "; StrV repository_name; Lit "/";
                    StrV relative_path; Lit ": "] ++ str e) in
  ret (Finished (Ok tt)).

Definition task_asset (t : Task) : option (Asset * string) :=
  match t with
  | Created a r | AwaitingResponse a r _ | AwaitingChunk a r _ _ _ _ => Some (a, r)
  | Finished _ => None
  end.

(** One turn of a [download_asset] task on the event loop: the coroutine runs
    from where it stands to its next suspension point or to its end.  An
    exception that leaves the coroutine becomes the result of the task. *)
Definition download_asset_step (t : Task) (w : World) : World * Task :=
  match task_asset t with
  | None => (w, t)
  | Some (asset, repository_name) =>
      match try_except (download_asset_body t)
                       (download_asset_except repository_name (path asset)) w with
      | (w', Ok t') => (w', t')
      | (w', Raise e) => (w', Finished (Raise e))
      end
  end.

(** ** The event loop under [asyncio.gather] (line 133) *)

Definition suspended (t : Task) : bool :=
  match t with
  | AwaitingResponse _ _ _ | AwaitingChunk _ _ _ _ _ _ => true
  | Created _ _ | Finished _ => false
  end.

Definition finished (t : Task) : bool :=
  match t with
  | Finished _ => true
  | _ => false
  end.

(** [gather] wraps every coroutine in a task, and the loop gives each new task
    its first turn in creation order before it polls the network: every
    coroutine runs up to its first suspension point. *)
Fixpoint start_tasks (tasks : list Task) (w : World) : World * list Task :=
  match tasks with
  | [] => (w, [])
  | t :: rest =>
      let '(w1, t') := download_asset_step t w in
      let '(w2, rest') := start_tasks rest w1 in
      (w2, t' :: rest')
  end.

(** The [k]-th suspended task gets a turn. *)
Fixpoint resume_nth (k : nat) (tasks : list Task) (w : World) : World * list Task :=
  match tasks with
  | [] => (w, [])
  | t :: rest =>
      if suspended t then
        match k with
        | O => let '(w', t') := download_asset_step t w in (w', t' :: rest)
        | S k' => let '(w', rest') := resume_nth k' rest w in (w', t :: rest')
        end
      else
        let '(w', rest') := resume_nth k rest w in (w', t :: rest')
  end.

(** How many tasks are suspended in a transfer. *)
Definition in_flight (tasks : list Task) : nat := length (List.filter suspended tasks).

(** A bound on the turns a task still needs. *)
Definition turns_left (t : Task) : nat :=
  match t with
  | Created asset _ =>
      match asset_reply env (downloadUrl asset) with
      | Ok d => 3 + length (iter_chunked CHUNK_SIZE (dl_content d))
      | Raise _ => 2
      end
  | AwaitingResponse asset _ _ =>
      match asset_reply env (downloadUrl asset) with
      | Ok d => 2 + length (iter_chunked CHUNK_SIZE (dl_content d))
      | Raise _ => 1
      end
  | AwaitingChunk _ _ _ _ chunks _ => 1 + length chunks
  | Finished _ => 0
  end%nat.

Definition total_turns (tasks : list Task) : nat := foldr (fun t n => (turns_left t + n)%nat) 0%nat tasks.

(** What awaiting [gather] gives once every task is done: the exception of a
    task that raised, if there is one. *)
Fixpoint gather_result (tasks : list Task) : result unit :=
  match tasks with
  | [] => Ok tt
  | Finished (Raise e) :: _ => Raise e
  | _ :: rest => gather_result rest
  end.

Section WithScheduler.

(** Which suspended task the network wakes next is not the script's choice:
    [pick] is any policy, read modulo the number of suspended tasks. *)
Variable pick : World -> list Task -> nat.

Fixpoint run_loop (fuel : nat) (tasks : list Task) (w : World) : World * list Task :=
  match fuel with
  | O => (w, tasks)
  | S fuel' =>
      match in_flight tasks with
      | O => (w, tasks)
      | S _ as n =>
          let '(w', tasks') := resume_nth (pick w tasks mod n) tasks w in
          run_loop fuel' tasks' w'
      end
  end.

(** A computation that may also fail to return within the fuel it is given. *)
Definition P (A : Type) : Type := World -> option (World * result A).

Definition lift {A} (m : M A) : P A := fun w => Some (m w).

Definition pbind {A B} (m : P A) (k : A -> P B) : P B :=
  fun w => match m w with
           | Some (w', Ok a) => k a w'
           | Some (w', Raise e) => Some (w', Raise e)
           | None => None
           end.

Definition p_try_except {A} (body : P A) (handler : exn -> P A) : P A :=
  fun w => match body w with
           | Some (w', Ok a) => Some (w', Ok a)
           | Some (w', Raise e) => handler e w'
           | None => None
           end.

Notation "'let!' x ':=' m 'in' k" := (pbind m (fun x => k))
  (at level 10, x name, m at level 100, k at level 200) : monad_scope.

(** Awaiting [asyncio.gather] of the download tasks (line 133): it returns
    when all tasks are done. *)
Definition asyncio_gather (download_tasks : list Task) : P unit :=
  fun w =>
    let '(w1, started) := start_tasks download_tasks w in
    let '(w2, done) := run_loop (total_turns started) started w1 in
    if forallb finished done then Some (w2, gather_result done) else None.

(** ** [process_repository] (lines 113-150) *)

(** Lines 127-130. *)
Definition download_tasks_of (repository_name : string) (result : Page) : list Task :=
  flat_map (fun item => map (fun asset => Created asset repository_name) (assets item))
           (items result).

(** Lines 124-137, the [while True] loop. *)
Fixpoint pages_loop (fuel : nat) (repository_name : string)
    (continuation_token : option string) : P unit :=
  match fuel with
  | O => fun _ => None
  | S fuel' =>
      let! result := lift (get_components repository_name continuation_token) in
      let download_tasks := download_tasks_of repository_name result in
      let! _ := (match download_tasks with
                 | [] => lift (ret tt)
                 | _ :: _ => asyncio_gather download_tasks
                 end) in
      let continuation_token := continuationToken result in
      if truthy continuation_token
      then pages_loop fuel' repository_name continuation_token
      else lift (ret tt)
  end.

Definition NL : frag := Lit (String (ascii_of_nat 10) EmptyString).

Definition MB : Q := inject_Z (1024 * 1024).

(** Lines 140-147. *)
Definition repository_summary (repository_name : string) : M unit :=
  fun w =>
    match stats w !! repository_name with
    | None => (w, Ok tt)
    | Some _ =>
        (let* now := time_time in
         let* s := stats_get repository_name in
         let duration := (now - start_time s)%Q in
         let size_mb := (inject_Z (downloaded_size s) / MB)%Q in
         let speed := if Qle_bool duration 0 then 0%Q else (size_mb / duration)%Q in
         let* _ := print [NL; Lit "Repository "; StrV repository_name; Lit " completed:"] in
         let* _ := print [Lit "Files downloaded: "; IntV (downloaded_assets s)] in
         let* _ := print [Lit "Total size: "; FltV size_mb; Lit " MB"] in
         print [Lit "Average speed: "; FltV speed; Lit " MB/s"]) w
    end.

Definition process_repository (repository : Repository) : P unit :=
  let repository_name := name repository in
  p_try_except
    (let! _ := lift (print [NL; Lit "Processing repository: "; StrV repository_name]) in
     let! _ := lift (logging_info [Lit "Processing repository: "; StrV repository_name]) in
     let! _ := lift (os_makedirs (os_path_join BASE_OUTPUT_DIR [repository_name])) in
     let! _ := (fun w => pages_loop (S (length (pending_pages w))) repository_name None w) in
     lift (repository_summary repository_name))
    (fun e =>
       lift (logging_error ([Lit "Error processing repository "; StrV repository_name;
                             Lit ": "] ++ str e))).

(** ** [export_all] (lines 152-173)

    The session object carries no state the model observes: creating and
    closing it is left out. *)

(** Lines 165-166. *)
Fixpoint for_each_repository (repositories : list Repository) : P unit :=
  match repositories with
  | [] => lift (ret tt)
  | repo :: rest =>
      let! _ := process_repository repo in
      for_each_repository rest
  end.

Definition export_all : P unit :=
  let! _ := lift (os_makedirs BASE_OUTPUT_DIR) in
  p_try_except
    (let! repositories := lift get_repositories in
     match repositories with
     | [] => lift (print [Lit "No repositories found or failed to get repositories list."])
     | _ :: _ => for_each_repository repositories
     end)
    (fun e =>
       let! _ := lift (logging_error (Lit "Error in export_all: " :: str e)) in
       lift (print (Lit "Error occurred: " :: str e))).

(** ** [main] (lines 175-197) *)

Definition total_files (m : gmap string RepoStats) : Z :=
  map_fold (fun _ repo_stats acc => downloaded_assets repo_stats + acc) 0 m.

Definition total_size (m : gmap string RepoStats) : Z :=
  map_fold (fun _ repo_stats acc => downloaded_size repo_stats + acc) 0 m.

(** Lines 187-197. *)
Definition overall_summary (duration : Q) : M unit :=
  fun w =>
    (let* _ := print [NL; Lit "Overall Export Summary:"] in
     let* _ := print [Lit "Total repositories processed: "; IntV (Z.of_nat (size (stats w)))] in
     let* _ := print [Lit "Total files downloaded: "; IntV (total_files (stats w))] in
     let* _ := print [Lit "Total size downloaded: ";
                      FltV (inject_Z (total_size (stats w)) / MB)%Q; Lit " MB"] in
     let* _ := print [Lit "Total time: "; FltV duration; Lit " seconds"] in
     let* _ := (if Qle_bool duration 0 then ret tt
                else print [Lit "Overall average speed: ";
                            FltV ((inject_Z (total_size (stats w)) / duration) / MB)%Q;
                            Lit " MB/s"]) in
     logging_info [Lit "Export completed. Total execution time: "; FltV duration;
                   Lit " seconds"]) w.

Definition main : P unit :=
  let! start := lift time_time in
  let! _ := lift (print [Lit "Starting Nexus export from: "; StrV NEXUS_URL]) in
  let! _ := lift (print [Lit "Base output directory: "; StrV BASE_OUTPUT_DIR]) in
  let! _ := lift (fun w => (init w, Ok tt)) in
  let! _ := export_all in
  let! end_time := lift time_time in
  let duration := (end_time - start)%Q in
  lift (overall_summary duration).

End WithScheduler.

End WithEnv.

(** ** What a download is bound to do

    Once a task is suspended in its transfer, the rest of its run is fixed by
    the environment alone. *)

(** Lines 91-92 as the specification words them: the file exists, the asset
    declares a [fileSize], and the size on disk equals it. *)
Definition skip_test (disk : gmap string (list byte)) (asset : Asset) (full_path : string) : bool :=
  match disk !! full_path, fileSize asset with
  | Some content, Some expected => Z.eqb (Z.of_nat (length content)) expected
  | _, _ => false
  end.

(** Does the stream reach its end with every chunk written? *)
Fixpoint stream_completes (env : Env) (p : string) (pos : nat)
    (chunks : list (list byte)) (broken : option exn) : bool :=
  match chunks with
  | [] => match broken with None => true | Some _ => false end
  | c :: rest =>
      match fs_fault env (WriteAt p pos) with
      | Some _ => false
      | None => stream_completes env p (pos + length c) rest broken
      end
  end.

(** The bytes of the chunks that get written. *)
Fixpoint stream_bytes (env : Env) (p : string) (pos : nat) (chunks : list (list byte)) : Z :=
  match chunks with
  | [] => 0
  | c :: rest =>
      match fs_fault env (WriteAt p pos) with
      | Some _ => 0
      | None => Z.of_nat (length c) + stream_bytes env p (pos + length c) rest
      end
  end.

Inductive Outcome : Type :=
| Skipped
| Downloaded (bytes : Z)
| Failed (bytes_written : Z).

(** How the transfer of a suspended task will end. *)
Definition task_outcome (env : Env) (t : Task) : option Outcome :=
  match t with
  | AwaitingResponse asset _ p =>
      match asset_reply env (downloadUrl asset) with
      | Raise _ => Some (Failed 0)
      | Ok d =>
          if Z.eqb (dl_status d) 200 then
            match fs_fault env (OpenWb p) with
            | Some _ => Some (Failed 0)
            | None =>
                let chunks := iter_chunked CHUNK_SIZE (dl_content d) in
                if stream_completes env p 0 chunks (dl_broken d)
                then Some (Downloaded (stream_bytes env p 0 chunks))
                else Some (Failed (stream_bytes env p 0 chunks))
            end
          else Some (Failed 0)
      end
  | AwaitingChunk _ _ p pos chunks broken =>
      if stream_completes env p pos chunks broken
      then Some (Downloaded (stream_bytes env p pos chunks))
      else Some (Failed (stream_bytes env p pos chunks))
  | Created _ _ | Finished _ => None
  end.

(** The state in which the first turn leaves the task of [asset], given the
    files on disk when it runs. *)
Definition started (env : Env) (disk : gmap string (list byte)) (repository_name : string)
    (asset : Asset) : Task :=
  let full_path := full_path_of repository_name (path asset) in
  if skip_test disk asset full_path then Finished (Ok tt)
  else match fs_fault env (Makedirs (os_path_dirname full_path)) with
       | Some _ => Finished (Ok tt)
       | None => AwaitingResponse asset repository_name full_path
       end.

(** How [download_asset] ends for [asset], given the files on disk when it
    starts. *)
Definition outcome (env : Env) (disk : gmap string (list byte)) (repository_name : string)
    (asset : Asset) : Outcome :=
  let full_path := full_path_of repository_name (path asset) in
  if skip_test disk asset full_path then Skipped
  else match fs_fault env (Makedirs (os_path_dirname full_path)) with
       | Some _ => Failed 0
       | None =>
           default (Failed 0)
             (task_outcome env (AwaitingResponse asset repository_name full_path))
       end.

Definition outcome_assets (o : option Outcome) : Z :=
  match o with
  | Some (Downloaded _) => 1
  | _ => 0
  end.

Definition outcome_bytes (o : option Outcome) : Z :=
  match o with
  | Some (Downloaded b) | Some (Failed b) => b
  | _ => 0
  end.

Definition outcome_errors (o : option Outcome) : nat :=
  match o with
  | Some (Failed _) => 1
  | _ => 0
  end.

Definition sum_Z {A} (f : A → Z) (l : list A) : Z := foldr (fun a n => f a + n) 0 l.

Definition sum_nat {A} (f : A → nat) (l : list A) : nat := foldr (fun a n => (f a + n)%nat) 0%nat l.

(** [await self.download_asset(asset, repository_name)]: a single coroutine
    driven to its end. *)
Definition download_asset (env : Env) (asset : Asset) (repository_name : string) : P unit :=
  asyncio_gather env (fun _ _ => 0%nat) [Created asset repository_name].

(** * Vocabulary of the properties *)

(** ** Observations on the world *)

Definition assets_of (w : World) (r : string) : Z :=
  match stats w !! r with
  | Some s => downloaded_assets s
  | None => 0
  end.

Definition bytes_of (w : World) (r : string) : Z :=
  match stats w !! r with
  | Some s => downloaded_size s
  | None => 0
  end.

(** Entries are never dropped or rebuilt, and their counters never go down. *)
Definition stats_le (m m' : gmap string RepoStats) : Prop :=
  ∀ r s, m !! r = Some s →
    ∃ s', m' !! r = Some s' ∧
          downloaded_assets s ≤ downloaded_assets s' ∧
          downloaded_size s ≤ downloaded_size s' ∧
          start_time s' = start_time s.

Definition errors (l : list (level * text)) : list text :=
  omap (fun e => match e with (ERROR, t) => Some t | (INFO, _) => None end) l.

Definition task_repo (t : Task) : option string :=
  match task_asset t with
  | Some (_, r) => Some r
  | None => None
  end.

(** A task that did not end with an exception. *)
Definition task_ok (t : Task) : Prop :=
  match t with
  | Finished (Raise _) => False
  | _ => True
  end.

Definition not_created (t : Task) : Prop :=
  match t with
  | Created _ _ => False
  | _ => True
  end.

(** ** What a turn writes *)

Definition error_downloading (r : string) (asset : Asset) (e : exn) : level * text :=
  (ERROR, [Lit "Error downloading "; StrV r; Lit "/"; StrV (path asset); Lit ": "] ++ str e).

Definition bump (s : RepoStats) (da db : Z) : RepoStats :=
  {| downloaded_assets := downloaded_assets s + da;
     downloaded_size := downloaded_size s + db;
     start_time := start_time s |}.

(** The world after lines 83-88. *)
Definition touch (env : Env) (r : string) (w : World) : World := (init_stats env r w).1.

Definition skipping (r : string) (a : Asset) : text :=
  [Lit "["; StrV r; Lit "] Skipping existing file: "; StrV (path a)].

(** ** A batch of one repository on the event loop *)

(** A task of the batch is done or suspended in a transfer for [r]. *)
Definition in_batch (r : string) (t : Task) : Prop :=
  finished t = true ∨ (suspended t = true ∧ task_repo t = Some r).

Definition due_assets (env : Env) (tasks : list Task) : Z :=
  sum_Z (fun t => outcome_assets (task_outcome env t)) tasks.

Definition due_bytes (env : Env) (tasks : list Task) : Z :=
  sum_Z (fun t => outcome_bytes (task_outcome env t)) tasks.

Definition due_errors (env : Env) (tasks : list Task) : nat :=
  sum_nat (fun t => outcome_errors (task_outcome env t)) tasks.

(** What the loop keeps true of a batch: counters plus what is still due
    stay constant. *)
Record batch_inv (env : Env) (r : string) (w0 : World) (tasks0 : list Task)
    (w : World) (tasks : list Task) : Prop := {
  inv_batch : Forall (in_batch r) tasks;
  inv_entry : is_Some (stats w !! r);
  inv_assets : assets_of w r + due_assets env tasks = assets_of w0 r + due_assets env tasks0;
  inv_bytes : bytes_of w r + due_bytes env tasks = bytes_of w0 r + due_bytes env tasks0;
  inv_errors : (length (errors (log w)) + due_errors env tasks
                = length (errors (log w0)) + due_errors env tasks0)%nat;
  inv_others : ∀ r', r' ≠ r → stats w !! r' = stats w0 !! r'
}.

Definition created (r : string) (batch : list Asset) : list Task :=
  map (fun asset => Created asset r) batch.

Definition outcomes (env : Env) (disk : gmap string (list byte)) (r : string) (batch : list Asset)
  : list (option Outcome) :=
  map (fun asset => Some (outcome env disk r asset)) batch.

(** ** Pagination as the loop sees it *)

(** The parameters of the GETs sent to the components endpoint, in order. *)
Definition page_requests (w : World) : list (list (string * string)) :=
  omap (fun rq => match rq with
                  | GetParams _ params => Some params
                  | Get _ => None
                  end) (requests w).

(** The page [get_components] hands back for a reply of the endpoint. *)
Definition served (reply : option (result (Response Page))) : Page :=
  match reply with
  | Some (Ok response) =>
      if Z.eqb (status response) 200 then
        match json response with
        | Ok page => page
        | Raise _ => empty_page
        end
      else empty_page
  | Some (Raise _) | None => empty_page
  end.

(** The reply is a page: status 200 and a body that parses. *)
Definition succeeded (reply : option (result (Response Page))) : bool :=
  match reply with
  | Some (Ok response) =>
      Z.eqb (status response) 200 && match json response with Ok _ => true | Raise _ => false end
  | Some (Raise _) | None => false
  end.

Definition components_request (repository_name : string) (token : option string) : Request :=
  GetParams (String.append NEXUS_URL "/service/rest/v1/components")
            (components_params repository_name token).

Definition page_assets (page : Page) : list Asset := flat_map assets (items page).

(** ** Scenarios *)

Definition unreachable : exn := Exception [Lit "Cannot connect to host"].

(** A server that answers every asset URL with [status] and [content]. *)
Definition serving (status : Z) (content : list byte) (broken : option exn) : Env :=
  {| repositories_reply := Raise unreachable;
     asset_reply := fun _ => Ok {| dl_status := status; dl_content := content;
                                   dl_broken := broken |};
     fs_fault := fun _ => None;
     clock := fun n => inject_Z (Z.of_nat n) |}.

Definition fresh_world : World :=
  {| stats := ∅; executor_max_workers := Some MAX_CONCURRENT_DOWNLOADS; fs := ∅;
     log := []; stdout := []; requests := []; pending_pages := []; ticks := 0 |}.

Definition jar_url : string := "http://localhost:8081/repository/releases/com/x/1.0/x.jar".
Definition jar_file : string := "nexus_artifacts/releases/com/x/1.0/x.jar".

Definition jar (size : option Z) : Asset :=
  {| downloadUrl := jar_url; path := "com/x/1.0/x.jar"; fileSize := size |}.

(** A disk that already holds [n] bytes at the destination of [jar]. *)
Definition with_jar_on_disk (n : nat) : World :=
  set_fs (fun _ => {[ jar_file := replicate n x00 ]}) fresh_world.

(** What a test would look at after a download. *)
Definition observe (r p : string) (res : option (World * result unit)) :=
  option_map (fun x => (x.2, requests x.1, fs x.1 !! p, assets_of x.1 r, bytes_of x.1 r)) res.

(** ** The skip policy *)

(** [download_asset] skips: its first turn ends it, no GET was sent, no
    counter moved, nothing was logged as an error. *)
Definition skips (env : Env) (asset : Asset) (repository_name : string) (w : World) : Prop :=
  let w' := (download_asset_step env (Created asset repository_name) w).1 in
  (download_asset_step env (Created asset repository_name) w).2 = Finished (Ok tt) ∧
  requests w' = requests w ∧ log w' = log w ∧
  ∀ r, assets_of w' r = assets_of w r ∧ bytes_of w' r = bytes_of w r.

(** ** Listing the repositories *)

(** A server whose listing endpoint answers with [status] and [body]. *)
Definition listing (status : Z) (repos : result (list Repository)) (body : string) : Env :=
  {| repositories_reply := Ok {| status := status; json := repos; resp_text := Ok body |};
     asset_reply := fun _ => Raise unreachable;
     fs_fault := fun _ => None;
     clock := fun n => inject_Z (Z.of_nat n) |}.

Definition failed_to_get_repositories (status : Z) : text :=
  [Lit "Failed to get repositories: Status "; IntV status].

(** ** Fetching a page *)

(** The components request did not succeed: no response, or a status other
    than 200. *)
Definition components_request_fails (w : World) : Prop :=
  match head (pending_pages w) with
  | Some (Ok response) => status response ≠ 200
  | Some (Raise _) | None => True
  end.

Definition answering (replies : list (result (Response Page))) : World :=
  set_pending_pages replies fresh_world.

Definition unavailable : result (Response Page) :=
  Ok {| status := 503; json := Raise (Exception [Lit "Expecting value"]);
        resp_text := Ok "Service Unavailable" |}.

(** ** Pagination *)

(** The token of the page [get_components] makes of a reply. *)
Definition next_token (reply : result (Response Page)) : option string :=
  continuationToken (served (Some reply)).

Definition page_reply (page : Page) : result (Response Page) :=
  Ok {| status := 200; json := Ok page; resp_text := Ok EmptyString |}.

Definition two_tokens : list (result (Response Page)) :=
  [page_reply {| items := []; continuationToken := Some "t1" |};
   page_reply {| items := []; continuationToken := Some "t2" |}].

Definition last_page : result (Response Page) :=
  page_reply {| items := []; continuationToken := None |}.

(** ** The concurrency ceiling *)

(** The [n]-th asset of a synthetic repository: [A.bin], [B.bin], ... *)
Definition numbered (n : nat) : Asset :=
  let letter := String (ascii_of_nat (65 + n)) ".bin" in
  {| downloadUrl := String.append "http://localhost:8081/repository/releases/" letter;
     path := letter;
     fileSize := None |}.

Definition eleven : list Asset := map numbered (seq 0 11).

(** ** Failures stay where they happen *)

Definition observe_errors (r : string) (res : option (World * result unit)) :=
  option_map (fun x => (x.2, length (errors (log x.1)), assets_of x.1 r, bytes_of x.1 r)) res.

(** Five assets of which the third is answered with 404. *)
Definition five : list Asset := map numbered (seq 0 5).

Definition third_is_missing : Env :=
  {| repositories_reply := Raise unreachable;
     asset_reply := fun url =>
       if String.eqb url (downloadUrl (numbered 2))
       then Ok {| dl_status := 404; dl_content := []; dl_broken := None |}
       else Ok {| dl_status := 200; dl_content := replicate 100 x01; dl_broken := None |};
     fs_fault := fun _ => None;
     clock := fun n => inject_Z (Z.of_nat n) |}.

(** ** Counting what was downloaded *)




(** ** The driver *)

(** Lines 144-147, for an entry [s] read [duration] seconds after its
    [start_time]. *)
Definition summary_lines (repository_name : string) (s : RepoStats) (duration : Q)
  : list text :=
  let size_mb := (inject_Z (downloaded_size s) / MB)%Q in
  let speed := if Qle_bool duration 0 then 0%Q else (size_mb / duration)%Q in
  [[NL; Lit "Repository "; StrV repository_name; Lit " completed:"];
   [Lit "Files downloaded: "; IntV (downloaded_assets s)];
   [Lit "Total size: "; FltV size_mb; Lit " MB"];
   [Lit "Average speed: "; FltV speed; Lit " MB/s"]].

(** The pages the loop goes through, given the replies to come: it stops
    after the first page without a truthy token, and an unreachable server
    gives the empty page. *)
Fixpoint visited (replies : list (result (Response Page))) : list Page :=
  match replies with
  | [] => [empty_page]
  | reply :: rest =>
      served (Some reply)
        :: (if truthy (continuationToken (served (Some reply))) then visited rest else [])
  end.

(** The world in which the loop of [process_repository] starts. *)
Definition announced (repository_name : string) (w : World) : World :=
  set_log (fun l => l ++ [(INFO, [Lit "Processing repository: "; StrV repository_name])])
    (set_stdout (fun l => l ++ [[NL; Lit "Processing repository: "; StrV repository_name]]) w).

(** ** The summaries *)

(** Lines 187-195, for the statistics [m] and a run of [duration] seconds. *)
Definition overall_lines (m : gmap string RepoStats) (duration : Q) : list text :=
  [[NL; Lit "Overall Export Summary:"];
   [Lit "Total repositories processed: "; IntV (Z.of_nat (size m))];
   [Lit "Total files downloaded: "; IntV (total_files m)];
   [Lit "Total size downloaded: "; FltV (inject_Z (total_size m) / MB)%Q; Lit " MB"];
   [Lit "Total time: "; FltV duration; Lit " seconds"]]
  ++ (if Qle_bool duration 0 then []
      else [[Lit "Overall average speed: ";
             FltV ((inject_Z (total_size m) / duration) / MB)%Q; Lit " MB/s"]]).

(** The world in which [main] calls [export_all]. *)
Definition launched (w : World) : World :=
  init (set_stdout (fun l => l ++ [[Lit "Base output directory: "; StrV BASE_OUTPUT_DIR]])
          (set_stdout (fun l => l ++ [[Lit "Starting Nexus export from: "; StrV NEXUS_URL]])
             (set_ticks (S (ticks w)) w))).

Definition has_no_float (t : text) : bool :=
  forallb (fun f => match f with FltV _ => false | _ => true end) t.

(** ** Destinations *)

(** Line 80: where [download_asset] puts [asset]. *)
Definition dest (repository_name : string) (asset : Asset) : string :=
  full_path_of repository_name (path asset).

(** The file a task writes to. *)
Definition task_path (t : Task) : option string :=
  match t with
  | Created asset r => Some (dest r asset)
  | AwaitingResponse _ _ p | AwaitingChunk _ _ p _ _ _ => Some p
  | Finished _ => None
  end.

(** Does the first turn of [asset] send its GET? *)
Definition requested (env : Env) (disk : gmap string (list byte)) (r : string)
    (asset : Asset) : bool :=
  suspended (started env disk r asset).

(** The bytes the server has for [asset]. *)
Definition body (env : Env) (asset : Asset) : list byte :=
  match asset_reply env (downloadUrl asset) with
  | Ok d => dl_content d
  | Raise _ => []
  end.

(** The task of an asset whose download is bound to complete: what it has
    written so far and what is still to come make up the body. *)
Definition on_track (env : Env) (r : string) (w : World) (a : Asset) (t : Task) : Prop :=
  match t with
  | Created _ _ => False
  | AwaitingResponse a' _ _ => a' = a
  | AwaitingChunk _ _ p pos chunks broken =>
      stream_completes env p pos chunks broken = true ∧
      ∃ written, fs w !! p = Some written ∧ pos = length written ∧
                 written ++ concat chunks = body env a
  | Finished _ => fs w !! dest r a = Some (body env a)
  end.

(** What the loop keeps true of the task [t] of asset [a], for a batch
    started on the disk [disk0]. *)
Definition kept (env : Env) (r : string) (disk0 : gmap string (list byte)) (w : World)
    (a : Asset) (t : Task) : Prop :=
  (finished t = true ∨
   (suspended t = true ∧ task_path t = Some (dest r a) ∧ task_repo t = Some r)) ∧
  (∀ b, outcome env disk0 r a = Downloaded b → on_track env r w a t) ∧
  (outcome env disk0 r a = Skipped →
   finished t = true ∧ fs w !! dest r a = disk0 !! dest r a).

(** What the event loop keeps true of a batch with distinct destinations,
    started in [w0]. *)
Definition files_inv (env : Env) (r : string) (batch : list Asset) (w0 w : World)
    (tasks : list Task) : Prop :=
  (batch ≠ [] → is_Some (stats w !! r)) ∧
  Forall2 (kept env r (fs w0) w) batch tasks ∧
  ∀ q, q ∉ map (dest r) batch → fs w !! q = fs w0 !! q.








(** ** Page requests of a run *)




Definition listing_url : string := String.append NEXUS_URL "/service/rest/v1/repositories".

(** The listing arrived: status 200 and a body that parses to [repos]. *)
Definition listed (env : Env) (repos : list Repository) : Prop :=
  ∃ response, repositories_reply env = Ok response ∧ status response = 200 ∧
              json response = Ok repos.

(** The listing did not arrive: no response, a status other than 200, or a
    body that does not parse. *)
Definition listing_fails (env : Env) : Prop :=
  match repositories_reply env with
  | Ok response => status response ≠ 200 ∨ ∃ e, json response = Raise e
  | Raise _ => True
  end.

(** A server that lists [repos] and serves no asset. *)
Definition listing_of (repos : list Repository) : Env :=
  listing 200 (Ok repos) EmptyString.


(** A machine on which every filesystem operation fails. *)
Definition read_only_disk : Env :=
  {| repositories_reply := Raise unreachable;
     asset_reply := fun _ => Raise unreachable;
     fs_fault := fun _ => Some (Exception [Lit "Read-only file system"]);
     clock := fun n => inject_Z (Z.of_nat n) |}.

(** A server whose listing is empty. *)
Definition empty_listing : Env := listing_of [].

(** ** The log as an audit trail *)




(** An asset whose path is absolute. *)
Definition stray : Asset :=
  {| downloadUrl := "http://localhost:8081/repository/releases/job";
     path := "/etc/cron.d/job"; fileSize := None |}.

(** * Lemmas and theorems *)

Ltac unfold_step :=
  unfold download_asset_step, try_except, download_asset_body, download_asset_except,
    init_stats, already_downloaded, os_path_exists, os_path_getsize, os_makedirs,
    session_send, open_wb, f_write, stats_add_size, stats_add_assets, stats_get,
    print, logging_error, logging_info, time_time, await, bind, ret, raise in *.

Ltac step_cases t :=
  destruct t as [? ?|? ? ?|? ? ? ? [|? ?] [?|]|?]; unfold_step; simpl in *;
  repeat case_match; simplify_eq/=.

Lemma stats_le_refl m : stats_le m m.
Proof. intros r s H. exists s. split; [done|]. repeat split; lia. Qed.

Lemma stats_le_trans m1 m2 m3 : stats_le m1 m2 → stats_le m2 m3 → stats_le m1 m3.
Proof.
  intros H12 H23 r s H.
  destruct (H12 r s H) as (s2 & H2 & Ha & Hb & Ht).
  destruct (H23 r s2 H2) as (s3 & H3 & Ha' & Hb' & Ht').
  exists s3. split; [done|]. repeat split; [lia | lia | congruence].
Qed.

Lemma stats_le_insert_fresh m r s : m !! r = None → stats_le m (<[r := s]> m).
Proof.
  intros Hr r' s' H. destruct (decide (r = r')) as [->|Hne]; [congruence|].
  exists s'. rewrite lookup_insert_ne by done. split; [done|]. repeat split; lia.
Qed.

Lemma stats_le_insert_bump m r s s' :
  m !! r = Some s →
  downloaded_assets s ≤ downloaded_assets s' →
  downloaded_size s ≤ downloaded_size s' →
  start_time s' = start_time s →
  stats_le m (<[r := s']> m).
Proof.
  intros Hr Ha Hb Ht r' s0 H. destruct (decide (r = r')) as [->|Hne].
  - exists s'. rewrite lookup_insert_eq. split; [done|]. simplify_eq. done.
  - exists s0. rewrite lookup_insert_ne by done. split; [done|]. repeat split; lia.
Qed.

(** ** The turns of a download and the event loop *)

Section StepFacts.

Variable env : Env.

(** A turn of a download task never touches the pending replies of the
    components endpoint or the executor. *)
Lemma step_frame t w :
  pending_pages (download_asset_step env t w).1 = pending_pages w ∧
  executor_max_workers (download_asset_step env t w).1 = executor_max_workers w.
Proof. step_cases t; done. Qed.

(** The counters of every repository only grow in a turn. *)
Lemma step_stats_le t w : stats_le (stats w) (stats (download_asset_step env t w).1).
Proof.
  step_cases t; try apply stats_le_refl;
    try (apply stats_le_insert_fresh; done);
    try (eapply stats_le_insert_bump; [eassumption|simpl; lia..|done]).
Qed.

(** No exception leaves [download_asset]. *)
Lemma step_task_ok t w : task_ok t → task_ok (download_asset_step env t w).2.
Proof. intros Hok. step_cases t; done. Qed.

Lemma step_not_created t w : not_created (download_asset_step env t w).2.
Proof. step_cases t; done. Qed.

(** Every turn of an unfinished task brings it strictly nearer to its end. *)
Lemma step_turns t w :
  finished t = false →
  (turns_left env (download_asset_step env t w).2 < turns_left env t)%nat.
Proof.
  intros Hf. step_cases t;
    repeat match goal with
           | H : ?x = _ |- context [match ?x with _ => _ end] => rewrite H
           end; simpl; lia.
Qed.

Lemma step_finished t w : finished t = true → download_asset_step env t w = (w, t).
Proof. destruct t; done. Qed.

(** *** Lifting facts about one turn to the event loop *)

Lemma run_loop_S pick fuel tasks w :
  run_loop env pick (S fuel) tasks w =
  match in_flight tasks with
  | O => (w, tasks)
  | S _ as n =>
      let '(w', tasks') := resume_nth env (pick w tasks mod n) tasks w in
      run_loop env pick fuel tasks' w'
  end.
Proof. done. Qed.

Section Lifting.

Variable R : World → World → Prop.
Hypothesis R_refl : ∀ w, R w w.
Hypothesis R_trans : ∀ w1 w2 w3, R w1 w2 → R w2 w3 → R w1 w3.
Hypothesis R_step : ∀ t w, R w (download_asset_step env t w).1.

Lemma start_tasks_rel tasks w : R w (start_tasks env tasks w).1.
Proof.
  revert w. induction tasks as [|t rest IH]; intros w; simpl; [done|].
  pose proof (R_step t w) as H1.
  destruct (download_asset_step env t w) as [w1 t'].
  pose proof (IH w1) as H2.
  destruct (start_tasks env rest w1) as [w2 rest']. simpl in *. eauto.
Qed.

Lemma resume_nth_rel k tasks w : R w (resume_nth env k tasks w).1.
Proof.
  revert k w. induction tasks as [|t rest IH]; intros k w; simpl; [done|].
  destruct (suspended t).
  - destruct k as [|k].
    + pose proof (R_step t w) as H1.
      destruct (download_asset_step env t w) as [w1 t']. done.
    + pose proof (IH k w) as H1.
      destruct (resume_nth env k rest w) as [w1 rest']. done.
  - pose proof (IH k w) as H1.
    destruct (resume_nth env k rest w) as [w1 rest']. done.
Qed.

Lemma run_loop_rel pick fuel tasks w : R w (run_loop env pick fuel tasks w).1.
Proof.
  revert tasks w. induction fuel as [|fuel IH]; intros tasks w; [done|].
  rewrite run_loop_S.
  destruct (in_flight tasks) as [|n]; [done|].
  remember (pick w tasks mod S n)%nat as k.
  pose proof (resume_nth_rel k tasks w) as H1.
  destruct (resume_nth env k tasks w) as [w1 tasks'].
  eapply R_trans; [exact H1|apply IH].
Qed.

Lemma asyncio_gather_rel pick tasks w w' res :
  asyncio_gather env pick tasks w = Some (w', res) → R w w'.
Proof.
  unfold asyncio_gather.
  pose proof (start_tasks_rel tasks w) as H1.
  destruct (start_tasks env tasks w) as [w1 started].
  pose proof (run_loop_rel pick (total_turns env started) started w1) as H2.
  destruct (run_loop env pick (total_turns env started) started w1) as [w2 done'].
  destruct (forallb finished done'); [|done].
  intros [= <- <-]. eauto.
Qed.

End Lifting.

Section LiftingTasks.

Variable Q : Task → Prop.
Hypothesis Q_step : ∀ t w, Q t → Q (download_asset_step env t w).2.

Lemma resume_nth_Forall k tasks w :
  Forall Q tasks → Forall Q (resume_nth env k tasks w).2.
Proof.
  revert k w. induction tasks as [|t rest IH]; intros k w Hall; simpl; [done|].
  inversion Hall as [|? ? Ht Hrest]; subst.
  destruct (suspended t).
  - destruct k as [|k].
    + pose proof (Q_step t w Ht) as H1.
      destruct (download_asset_step env t w) as [w1 t']. simpl in *. by constructor.
    + pose proof (IH k w Hrest) as H1.
      destruct (resume_nth env k rest w) as [w1 rest']. simpl in *. by constructor.
  - pose proof (IH k w Hrest) as H1.
    destruct (resume_nth env k rest w) as [w1 rest']. simpl in *. by constructor.
Qed.

Lemma run_loop_Forall pick fuel tasks w :
  Forall Q tasks → Forall Q (run_loop env pick fuel tasks w).2.
Proof.
  revert tasks w. induction fuel as [|fuel IH]; intros tasks w Hall; [done|].
  rewrite run_loop_S.
  destruct (in_flight tasks) as [|n]; [done|].
  remember (pick w tasks mod S n)%nat as k.
  pose proof (resume_nth_Forall k tasks w Hall) as H1.
  destruct (resume_nth env k tasks w) as [w1 tasks'].
  by apply IH.
Qed.

End LiftingTasks.

Lemma start_tasks_Forall (Q : Task → Prop) tasks w :
  (∀ t w, Q (download_asset_step env t w).2) →
  Forall Q (start_tasks env tasks w).2.
Proof.
  intros HQ. revert w. induction tasks as [|t rest IH]; intros w; simpl; [done|].
  pose proof (HQ t w) as H1.
  destruct (download_asset_step env t w) as [w1 t'].
  pose proof (IH w1) as H2.
  destruct (start_tasks env rest w1) as [w2 rest']. simpl in *. by constructor.
Qed.

(** *** The loop under [gather] always drains *)

Lemma in_flight_cons t tasks :
  in_flight (t :: tasks) = ((if suspended t then 1 else 0) + in_flight tasks)%nat.
Proof. unfold in_flight. simpl. by destruct (suspended t). Qed.

Lemma resume_nth_turns k tasks w :
  (k < in_flight tasks)%nat →
  (total_turns env (resume_nth env k tasks w).2 < total_turns env tasks)%nat.
Proof.
  revert k w. induction tasks as [|t rest IH]; intros k w Hk.
  - unfold in_flight in Hk. simpl in Hk. lia.
  - rewrite in_flight_cons in Hk. simpl.
    destruct (suspended t) eqn:Hs.
    + destruct k as [|k].
      * assert (finished t = false) as Hf by (destruct t; done).
        pose proof (step_turns t w Hf) as H1.
        destruct (download_asset_step env t w) as [w1 t']. simpl in *. lia.
      * assert (k < in_flight rest)%nat as Hk' by lia.
        pose proof (IH k w Hk') as H1.
        destruct (resume_nth env k rest w) as [w1 rest']. simpl in *. lia.
    + assert (k < in_flight rest)%nat as Hk' by lia.
      pose proof (IH k w Hk') as H1.
      destruct (resume_nth env k rest w) as [w1 rest']. simpl in *. lia.
Qed.

Lemma in_flight_0_finished tasks :
  Forall not_created tasks → in_flight tasks = 0%nat → forallb finished tasks = true.
Proof.
  induction 1 as [|t rest Ht Hrest IH]; [done|].
  rewrite in_flight_cons. intros H0. simpl.
  destruct t; simpl in *; try done; try lia. apply IH. lia.
Qed.

Lemma run_loop_drains pick fuel tasks w :
  Forall not_created tasks →
  (total_turns env tasks ≤ fuel)%nat →
  forallb finished (run_loop env pick fuel tasks w).2 = true.
Proof.
  revert tasks w. induction fuel as [|fuel IH]; intros tasks w Hnc Hfuel.
  - simpl. apply in_flight_0_finished; [done|].
    destruct (in_flight tasks) as [|n] eqn:Hn; [done|].
    assert (0 < in_flight tasks)%nat as Hpos by lia.
    pose proof (resume_nth_turns 0 tasks w Hpos). lia.
  - rewrite run_loop_S.
    destruct (in_flight tasks) as [|n] eqn:Hn.
    + by apply in_flight_0_finished.
    + remember (pick w tasks mod S n)%nat as k.
      assert (k < in_flight tasks)%nat as Hk
        by (subst k; rewrite Hn; apply Nat.mod_upper_bound; lia).
      pose proof (resume_nth_turns k tasks w Hk) as H1.
      pose proof (resume_nth_Forall not_created
                    (fun t w _ => step_not_created t w) k tasks w Hnc) as H2.
      destruct (resume_nth env k tasks w) as [w1 tasks'].
      simpl in H1, H2. apply IH; [done|lia].
Qed.

Lemma gather_result_ok tasks : Forall task_ok tasks → gather_result tasks = Ok tt.
Proof.
  induction 1 as [|t rest Ht Hrest IH]; [done|].
  simpl. destruct t as [| | |[[]|e]]; simpl in *; done.
Qed.

(** [asyncio.gather] over [download_asset] coroutines always returns, and
    never with an exception. *)
Lemma asyncio_gather_total pick tasks w :
  Forall task_ok tasks →
  ∃ w', asyncio_gather env pick tasks w = Some (w', Ok tt).
Proof.
  intros Hok. unfold asyncio_gather.
  pose proof (start_tasks_Forall not_created tasks w step_not_created) as Hnc.
  assert (Forall task_ok (start_tasks env tasks w).2) as Hok1.
  { clear Hnc. revert w. induction Hok as [|t rest Ht Hrest IH]; intros w; simpl; [done|].
    pose proof (step_task_ok t w Ht) as H1.
    destruct (download_asset_step env t w) as [w1 t'].
    pose proof (IH w1) as H2.
    destruct (start_tasks env rest w1) as [w2 rest']. simpl in *. by constructor. }
  destruct (start_tasks env tasks w) as [w1 started]. simpl in *.
  pose proof (run_loop_drains pick (total_turns env started) started w1 Hnc (le_n _)) as Hd.
  pose proof (run_loop_Forall task_ok step_task_ok pick (total_turns env started) started w1 Hok1) as Hok2.
  destruct (run_loop env pick (total_turns env started) started w1) as [w2 done'].
  simpl in *. rewrite Hd. exists w2. by rewrite gather_result_ok.
Qed.

(** *** The turns of [download_asset], case by case *)

Lemma step_response_raises a r p w e :
  asset_reply env (downloadUrl a) = Raise e →
  download_asset_step env (AwaitingResponse a r p) w =
    (set_log (fun l => l ++ [error_downloading r a e]) w, Finished (Ok tt)).
Proof. intros H. unfold_step. simpl. by rewrite H. Qed.

Lemma step_response_status a r p w d :
  asset_reply env (downloadUrl a) = Ok d → dl_status d ≠ 200 →
  download_asset_step env (AwaitingResponse a r p) w =
    (set_log (fun l => l ++ [(ERROR, [Lit "Failed to download "; StrV r; Lit "/";
                                      StrV (path a); Lit ": "; IntV (dl_status d)])]) w,
     Finished (Ok tt)).
Proof.
  intros H Hst. unfold_step. simpl. rewrite H.
  apply Z.eqb_neq in Hst. by rewrite Hst.
Qed.

Lemma step_response_open_fault a r p w d e :
  asset_reply env (downloadUrl a) = Ok d → dl_status d = 200 →
  fs_fault env (OpenWb p) = Some e →
  download_asset_step env (AwaitingResponse a r p) w =
    (set_log (fun l => l ++ [error_downloading r a e]) w, Finished (Ok tt)).
Proof. intros H Hst Hf. unfold_step. simpl. by rewrite H, Hst, Hf. Qed.

Lemma step_response_ok a r p w d :
  asset_reply env (downloadUrl a) = Ok d → dl_status d = 200 →
  fs_fault env (OpenWb p) = None →
  download_asset_step env (AwaitingResponse a r p) w =
    (set_fs (fun m => <[p := []]> m) w,
     AwaitingChunk a r p 0 (iter_chunked CHUNK_SIZE (dl_content d)) (dl_broken d)).
Proof. intros H Hst Hf. unfold_step. simpl. by rewrite H, Hst, Hf. Qed.

Lemma step_chunk_fault a r p pos c rest b w e :
  fs_fault env (WriteAt p pos) = Some e →
  download_asset_step env (AwaitingChunk a r p pos (c :: rest) b) w =
    (set_log (fun l => l ++ [error_downloading r a e]) w, Finished (Ok tt)).
Proof. intros Hf. unfold_step. simpl. by rewrite Hf. Qed.

Lemma step_chunk_ok a r p pos c rest b w s :
  fs_fault env (WriteAt p pos) = None → stats w !! r = Some s →
  download_asset_step env (AwaitingChunk a r p pos (c :: rest) b) w =
    (set_stats (fun m => <[r := bump s 0 (Z.of_nat (length c))]> m)
       (set_fs (fun m => <[p := write_at pos c (default [] (m !! p))]> m) w),
     AwaitingChunk a r p (pos + length c) rest b).
Proof.
  intros Hf Hs. unfold_step. simpl. rewrite Hf. simpl. rewrite Hs.
  unfold bump. by rewrite Z.add_0_r.
Qed.

Lemma step_end_broken a r p pos e w :
  download_asset_step env (AwaitingChunk a r p pos [] (Some e)) w =
    (set_log (fun l => l ++ [error_downloading r a e]) w, Finished (Ok tt)).
Proof. done. Qed.

Lemma step_end_ok a r p pos w s :
  stats w !! r = Some s →
  download_asset_step env (AwaitingChunk a r p pos [] None) w =
    (set_log (fun l => l ++ [(INFO, [Lit "Successfully downloaded: "; StrV r; Lit "/";
                                     StrV (path a)])])
       (set_stdout (fun l => l ++ [[Lit "["; StrV r; Lit "] Downloaded (";
                                    IntV (downloaded_assets s + 1); Lit "): ";
                                    StrV (path a)]])
          (set_stats (fun m => <[r := bump s 1 0]> m) w)),
     Finished (Ok tt)).
Proof.
  intros Hs. unfold_step. simpl. rewrite Hs. simpl. rewrite lookup_insert_eq.
  unfold bump. by rewrite Z.add_0_r.
Qed.

Lemma errors_app l l' : errors (l ++ l') = errors l ++ errors l'.
Proof. unfold errors. apply omap_app. Qed.

(** *** Counters against outcomes *)

Lemma step_counters t w r :
  task_repo t = Some r → suspended t = true → is_Some (stats w !! r) →
  assets_of (download_asset_step env t w).1 r
    + outcome_assets (task_outcome env (download_asset_step env t w).2)
    = assets_of w r + outcome_assets (task_outcome env t) ∧
  bytes_of (download_asset_step env t w).1 r
    + outcome_bytes (task_outcome env (download_asset_step env t w).2)
    = bytes_of w r + outcome_bytes (task_outcome env t) ∧
  (length (errors (log (download_asset_step env t w).1))
    + outcome_errors (task_outcome env (download_asset_step env t w).2)
    = length (errors (log w)) + outcome_errors (task_outcome env t))%nat ∧
  (∀ r', r' ≠ r → stats (download_asset_step env t w).1 !! r' = stats w !! r') ∧
  is_Some (stats (download_asset_step env t w).1 !! r) ∧
  (finished (download_asset_step env t w).2 = true ∨
   (suspended (download_asset_step env t w).2 = true ∧
    task_repo (download_asset_step env t w).2 = Some r)).
Proof.
  intros Hr Hs [s0 Hs0].
  destruct t as [|a r0 p|a r0 p pos chunks b|]; try done;
    unfold task_repo in Hr; simpl in Hr; simplify_eq.
  - (* the response arrives *)
    destruct (asset_reply env (downloadUrl a)) as [d|e] eqn:Hreply.
    + destruct (decide (dl_status d = 200)) as [Hst|Hst].
      * destruct (fs_fault env (OpenWb p)) as [e|] eqn:Hopen.
        -- rewrite (step_response_open_fault _ _ _ _ _ _ Hreply Hst Hopen).
           unfold assets_of, bytes_of. simpl. rewrite Hreply, Hst, Hopen, Hs0. simpl.
           rewrite errors_app, length_app. simpl. repeat split; eauto; lia.
        -- rewrite (step_response_ok _ _ _ _ _ Hreply Hst Hopen).
           unfold assets_of, bytes_of. simpl. rewrite Hreply, Hst, Hopen, Hs0. simpl.
           repeat split; eauto.
      * rewrite (step_response_status _ _ _ _ _ Hreply Hst).
        unfold assets_of, bytes_of. simpl. rewrite Hreply, Hs0.
        apply Z.eqb_neq in Hst. rewrite Hst. simpl.
        rewrite errors_app, length_app. simpl. repeat split; eauto; lia.
    + rewrite (step_response_raises _ _ _ _ _ Hreply).
      unfold assets_of, bytes_of. simpl. rewrite Hreply, Hs0. simpl.
      rewrite errors_app, length_app. simpl. repeat split; eauto; lia.
  - (* a round of the chunk loop *)
    destruct chunks as [|c rest].
    + destruct b as [e|].
      * rewrite step_end_broken. unfold assets_of, bytes_of. simpl. rewrite Hs0.
        rewrite errors_app, length_app. simpl. repeat split; eauto; lia.
      * rewrite (step_end_ok _ _ _ _ _ _ Hs0). unfold assets_of, bytes_of. simpl.
        rewrite lookup_insert_eq, Hs0, errors_app. simpl. rewrite app_nil_r.
        repeat split; eauto; try lia.
        intros r' Hne. by rewrite lookup_insert_ne.
    + destruct (fs_fault env (WriteAt p pos)) as [e|] eqn:Hw.
      * rewrite (step_chunk_fault _ _ _ _ _ _ _ _ _ Hw).
        unfold assets_of, bytes_of. simpl. rewrite Hw, Hs0. simpl.
        rewrite errors_app, length_app. simpl. repeat split; eauto; lia.
      * rewrite (step_chunk_ok _ _ _ _ _ _ _ _ _ Hw Hs0).
        unfold assets_of, bytes_of. simpl. rewrite Hw, lookup_insert_eq, Hs0. simpl.
        destruct (stream_completes env p (pos + length c) rest b); simpl;
          (repeat split; eauto; try lia; intros r' Hne; by rewrite lookup_insert_ne).
Qed.

(** *** The first turn *)

Lemma init_stats_ok r w : init_stats env r w = (touch env r w, Ok tt).
Proof. unfold touch, init_stats, time_time. by destruct (stats w !! r). Qed.

Lemma touch_frame r w :
  fs (touch env r w) = fs w ∧ log (touch env r w) = log w ∧ stdout (touch env r w) = stdout w ∧
  requests (touch env r w) = requests w ∧ pending_pages (touch env r w) = pending_pages w.
Proof. unfold touch, init_stats, time_time. by destruct (stats w !! r). Qed.

Lemma touch_stats r w :
  stats (touch env r w) =
  match stats w !! r with
  | Some _ => stats w
  | None => <[r := {| downloaded_assets := 0; downloaded_size := 0;
                      start_time := clock env (ticks w) |}]> (stats w)
  end.
Proof. unfold touch, init_stats, time_time. by destruct (stats w !! r). Qed.

Lemma touch_is_Some r w : is_Some (stats (touch env r w) !! r).
Proof.
  rewrite touch_stats. destruct (stats w !! r) eqn:H; [by rewrite H|].
  rewrite lookup_insert_eq. eauto.
Qed.

Lemma touch_other r w r' : r' ≠ r → stats (touch env r w) !! r' = stats w !! r'.
Proof.
  intros Hne. rewrite touch_stats. destruct (stats w !! r); [done|].
  by rewrite lookup_insert_ne.
Qed.

Lemma touch_counters r w r' :
  assets_of (touch env r w) r' = assets_of w r' ∧ bytes_of (touch env r w) r' = bytes_of w r'.
Proof.
  unfold assets_of, bytes_of. destruct (decide (r' = r)) as [->|Hne].
  - rewrite touch_stats. destruct (stats w !! r) eqn:H; [by rewrite H|].
    by rewrite lookup_insert_eq.
  - by rewrite touch_other.
Qed.

(** Lines 91-92 compute the test of the specification. *)
Lemma already_downloaded_skip_test asset full_path w :
  already_downloaded asset full_path w = (w, Ok (skip_test (fs w) asset full_path)).
Proof.
  unfold already_downloaded, skip_test, os_path_exists, os_path_getsize, bind, ret.
  destruct (fs w !! full_path) as [content|] eqn:H; simpl.
  - destruct (fileSize asset); [|done]. by rewrite H.
  - done.
Qed.

Lemma step_created_skip a r w :
  skip_test (fs w) a (full_path_of r (path a)) = true →
  download_asset_step env (Created a r) w =
    (set_stdout (fun l => l ++ [skipping r a]) (touch env r w), Finished (Ok tt)).
Proof.
  intros Hskip. unfold download_asset_step, try_except, download_asset_body. simpl.
  unfold bind at 1. rewrite init_stats_ok.
  unfold bind at 1. rewrite already_downloaded_skip_test.
  destruct (touch_frame r w) as (-> & _). by rewrite Hskip.
Qed.

Lemma step_created_makedirs_fault a r w e :
  skip_test (fs w) a (full_path_of r (path a)) = false →
  fs_fault env (Makedirs (os_path_dirname (full_path_of r (path a)))) = Some e →
  download_asset_step env (Created a r) w =
    (set_log (fun l => l ++ [error_downloading r a e]) (touch env r w), Finished (Ok tt)).
Proof.
  intros Hskip Hf. unfold download_asset_step, try_except, download_asset_body. simpl.
  unfold bind at 1. rewrite init_stats_ok.
  unfold bind at 1. rewrite already_downloaded_skip_test.
  destruct (touch_frame r w) as (-> & _). rewrite Hskip.
  unfold bind, os_makedirs. by rewrite Hf.
Qed.

Lemma step_created_sent a r w :
  skip_test (fs w) a (full_path_of r (path a)) = false →
  fs_fault env (Makedirs (os_path_dirname (full_path_of r (path a)))) = None →
  download_asset_step env (Created a r) w =
    (set_requests (fun l => l ++ [Get (downloadUrl a)]) (touch env r w),
     AwaitingResponse a r (full_path_of r (path a))).
Proof.
  intros Hskip Hf. unfold download_asset_step, try_except, download_asset_body. simpl.
  unfold bind at 1. rewrite init_stats_ok.
  unfold bind at 1. rewrite already_downloaded_skip_test.
  destruct (touch_frame r w) as (-> & _). rewrite Hskip.
  unfold bind, os_makedirs. by rewrite Hf.
Qed.

Ltac touch_facts r w :=
  try done;
  try (let r' := fresh in intros r'; exact (touch_counters r w r'));
  try exact (touch_is_Some r w);
  try (let r' := fresh in let H := fresh in intros r' H; exact (touch_other r w r' H)).

(** The first turn ends in the state [started] foretells, leaves the disk and
    the counters as they were, and makes sure the repository has its entry. *)
Lemma step_created a r w :
  (download_asset_step env (Created a r) w).2 = started env (fs w) r a ∧
  fs (download_asset_step env (Created a r) w).1 = fs w ∧
  (∀ r', assets_of (download_asset_step env (Created a r) w).1 r' = assets_of w r' ∧
         bytes_of (download_asset_step env (Created a r) w).1 r' = bytes_of w r') ∧
  is_Some (stats (download_asset_step env (Created a r) w).1 !! r) ∧
  (∀ r', r' ≠ r → stats (download_asset_step env (Created a r) w).1 !! r' = stats w !! r') ∧
  (length (errors (log (download_asset_step env (Created a r) w).1))
     + outcome_errors (task_outcome env (started env (fs w) r a))
   = length (errors (log w)) + outcome_errors (Some (outcome env (fs w) r a)))%nat.
Proof.
  unfold started, outcome.
  destruct (touch_frame r w) as (Hfs & Hlog & _).
  destruct (skip_test (fs w) a (full_path_of r (path a))) eqn:Hskip.
  - rewrite (step_created_skip _ _ _ Hskip). simpl. rewrite Hlog.
    split_and!; touch_facts r w.
  - destruct (fs_fault env (Makedirs _)) as [e|] eqn:Hf.
    + rewrite (step_created_makedirs_fault _ _ _ _ Hskip Hf). simpl.
      rewrite Hlog, errors_app, length_app. simpl.
      split_and!; touch_facts r w; lia.
    + rewrite (step_created_sent _ _ _ Hskip Hf). simpl. rewrite Hlog.
      split_and!; touch_facts r w.
      destruct (asset_reply env (downloadUrl a)) as [d|]; [|done].
      destruct (dl_status d =? 200); [|done].
      destruct (fs_fault env (OpenWb _)); [done|].
      by destruct (stream_completes _ _ _ _ _).
Qed.

Lemma outcome_started disk r a :
  outcome_assets (task_outcome env (started env disk r a))
    = outcome_assets (Some (outcome env disk r a)) ∧
  outcome_bytes (task_outcome env (started env disk r a))
    = outcome_bytes (Some (outcome env disk r a)).
Proof.
  unfold started, outcome.
  destruct (skip_test _ _ _); [done|].
  destruct (fs_fault env (Makedirs _)); [done|]. simpl.
  destruct (asset_reply env (downloadUrl a)) as [d|]; [|done].
  destruct (dl_status d =? 200); [|done].
  destruct (fs_fault env (OpenWb _)); [done|].
  by destruct (stream_completes _ _ _ _ _).
Qed.

(** *** A batch of one repository on the event loop *)

Lemma batch_inv_refl r w tasks :
  Forall (in_batch r) tasks → is_Some (stats w !! r) → batch_inv env r w tasks w tasks.
Proof. by constructor. Qed.

Lemma finished_no_outcome t : finished t = true → task_outcome env t = None.
Proof. by destruct t. Qed.

Lemma resume_nth_batch r k tasks w :
  Forall (in_batch r) tasks → is_Some (stats w !! r) →
  batch_inv env r w tasks (resume_nth env k tasks w).1 (resume_nth env k tasks w).2.
Proof.
  revert k. induction tasks as [|t rest IH]; intros k Hb He; [by constructor|].
  inversion Hb as [|? ? Ht Hrest]; subst. simpl.
  assert (∀ k', batch_inv env r w (t :: rest)
                  (resume_nth env k' rest w).1 (t :: (resume_nth env k' rest w).2)) as Hskip.
  { intros k'. destruct (IH k' Hrest He) as [H1 H2 H3 H4 H5 H6].
    constructor; try done.
    - by constructor.
    - unfold due_assets in *. simpl. lia.
    - unfold due_bytes in *. simpl. lia.
    - unfold due_errors in *. simpl. lia. }
  destruct (suspended t) eqn:Hs.
  - destruct k as [|k].
    + destruct Ht as [Hf|[_ Hr]]; [by destruct t|].
      destruct (step_counters t w r Hr Hs He) as (H1 & H2 & H3 & H4 & H5 & H6).
      destruct (download_asset_step env t w) as [w1 t']. simpl in *.
      constructor; try done.
      * by constructor.
      * unfold due_assets. simpl. lia.
      * unfold due_bytes. simpl. lia.
      * unfold due_errors. simpl. lia.
    + specialize (Hskip k). by destruct (resume_nth env k rest w).
  - specialize (Hskip k). by destruct (resume_nth env k rest w).
Qed.

Lemma batch_inv_trans r w0 t0 w1 t1 w2 t2 :
  batch_inv env r w0 t0 w1 t1 → batch_inv env r w1 t1 w2 t2 → batch_inv env r w0 t0 w2 t2.
Proof.
  intros [A1 A2 A3 A4 A5 A6] [B1 B2 B3 B4 B5 B6].
  constructor; try done; try lia.
  intros r' Hne. rewrite B6 by done. by apply A6.
Qed.

Lemma run_loop_batch r pick fuel tasks w :
  Forall (in_batch r) tasks → is_Some (stats w !! r) →
  batch_inv env r w tasks (run_loop env pick fuel tasks w).1 (run_loop env pick fuel tasks w).2.
Proof.
  revert tasks w. induction fuel as [|fuel IH]; intros tasks w Hb He; [by constructor|].
  rewrite run_loop_S.
  destruct (in_flight tasks) as [|n]; [by constructor|].
  remember (pick w tasks mod S n)%nat as k.
  pose proof (resume_nth_batch r k tasks w Hb He) as H1.
  destruct (resume_nth env k tasks w) as [w1 tasks1]. simpl in H1.
  eapply batch_inv_trans; [exact H1|].
  apply IH; [apply H1|apply H1].
Qed.

Lemma due_finished tasks :
  forallb finished tasks = true →
  due_assets env tasks = 0 ∧ due_bytes env tasks = 0 ∧ due_errors env tasks = 0%nat.
Proof.
  unfold due_assets, due_bytes, due_errors.
  induction tasks as [|t rest IH]; [done|]. simpl.
  intros [Hf Hrest]%andb_prop. rewrite (finished_no_outcome t Hf). simpl.
  destruct (IH Hrest) as (-> & -> & ->). done.
Qed.

(** The first pass over a batch: every task is started, the disk is as it
    was, and so are the counters. *)
Lemma start_tasks_created r batch w :
  (start_tasks env (created r batch) w).2 = map (started env (fs w) r) batch ∧
  fs (start_tasks env (created r batch) w).1 = fs w ∧
  (∀ r', assets_of (start_tasks env (created r batch) w).1 r' = assets_of w r' ∧
         bytes_of (start_tasks env (created r batch) w).1 r' = bytes_of w r') ∧
  (batch ≠ [] → is_Some (stats (start_tasks env (created r batch) w).1 !! r)) ∧
  (is_Some (stats w !! r) → is_Some (stats (start_tasks env (created r batch) w).1 !! r)) ∧
  (∀ r', r' ≠ r → stats (start_tasks env (created r batch) w).1 !! r' = stats w !! r') ∧
  (length (errors (log (start_tasks env (created r batch) w).1))
     + due_errors env (map (started env (fs w) r) batch)
   = length (errors (log w)) + sum_nat outcome_errors (outcomes env (fs w) r batch))%nat.
Proof.
  revert w. induction batch as [|a rest IH]; intros w; [done|]. simpl.
  destruct (step_created a r w) as (H1 & H2 & H3 & H4 & H5 & H6).
  destruct (download_asset_step env (Created a r) w) as [w1 t']. simpl in *.
  destruct (IH w1) as (I1 & I2 & I3 & I4 & I5 & I6 & I7).
  fold (created r rest).
  destruct (start_tasks env (created r rest) w1) as [w2 rest']. simpl in *.
  rewrite H2 in *. subst. split_and!; try done.
  - intros r'. destruct (I3 r') as [-> ->]. apply H3.
  - auto.
  - auto.
  - intros r' Hne. rewrite I6 by done. by apply H5.
  - unfold due_errors in *. simpl. lia.
Qed.

Lemma started_in_batch disk r a : in_batch r (started env disk r a).
Proof.
  unfold started, in_batch. destruct (skip_test _ _ _); [by left|].
  destruct (fs_fault env _); [by left|]. by right.
Qed.

Lemma due_started disk r batch :
  due_assets env (map (started env disk r) batch) = sum_Z outcome_assets (outcomes env disk r batch) ∧
  due_bytes env (map (started env disk r) batch) = sum_Z outcome_bytes (outcomes env disk r batch).
Proof.
  unfold due_assets, due_bytes, outcomes.
  induction batch as [|a rest [IH1 IH2]]; [done|]. simpl.
  destruct (outcome_started disk r a) as [-> ->]. by rewrite IH1, IH2.
Qed.

(** Awaiting [gather] on the tasks of a batch returns, without an exception,
    whatever the order in which the network wakes the tasks; the counters of
    the repository have grown by what the outcomes of its assets add up to,
    and no other repository is touched. *)
Lemma gather_counters pick r batch w :
  ∃ w', asyncio_gather env pick (created r batch) w = Some (w', Ok tt) ∧
        assets_of w' r = assets_of w r + sum_Z outcome_assets (outcomes env (fs w) r batch) ∧
        bytes_of w' r = bytes_of w r + sum_Z outcome_bytes (outcomes env (fs w) r batch) ∧
        length (errors (log w'))
          = (length (errors (log w)) + sum_nat outcome_errors (outcomes env (fs w) r batch))%nat ∧
        (∀ r', r' ≠ r → stats w' !! r' = stats w !! r').
Proof.
  assert (Forall task_ok (created r batch)) as Hok
    by (unfold created; apply Forall_map, Forall_true; done).
  destruct (asyncio_gather_total pick _ w Hok) as [w' Hg].
  exists w'. split; [done|].
  unfold asyncio_gather in Hg.
  destruct (start_tasks_created r batch w) as (S1 & S2 & S3 & S4 & S5 & S6 & S7).
  destruct (start_tasks env (created r batch) w) as [w1 tasks1]. simpl in *. subst tasks1.
  destruct batch as [|a rest].
  { simpl in *. injection Hg as <-. destruct (S3 r) as [-> ->].
    split_and!; try lia; done. }
  assert (is_Some (stats w1 !! r)) as He by (by apply S4).
  destruct (due_started (fs w) r (a :: rest)) as [Q1 Q2].
  remember (a :: rest) as batch eqn:Hbatch.
  remember (map (started env (fs w) r) batch) as tasks1 eqn:Htasks1.
  assert (Forall (in_batch r) tasks1) as Hb
    by (subst tasks1; apply Forall_map, Forall_true; intros; apply started_in_batch).
  pose proof (run_loop_batch r pick (total_turns env tasks1) tasks1 w1 Hb He) as Hinv.
  destruct (run_loop env pick (total_turns env tasks1) tasks1 w1) as [w2 tasks2].
  cbn [fst snd] in Hinv.
  destruct (forallb finished tasks2) eqn:Hf; [|done].
  injection Hg as <-.
  destruct (due_finished tasks2 Hf) as (D1 & D2 & D3).
  destruct Hinv as [_ _ A B E O].
  destruct (S3 r) as [Sa Sb].
  rewrite D1, Q1, Sa in A. rewrite D2, Q2, Sb in B. rewrite D3 in E.
  split_and!; try lia.
  intros r' Hne. rewrite O by done. by apply S6.
Qed.

(** *** What a turn leaves alone *)

Lemma step_page_requests t w :
  page_requests (download_asset_step env t w).1 = page_requests w.
Proof.
  unfold page_requests.
  step_cases t; rewrite ?omap_app; simpl; rewrite ?app_nil_r; done.
Qed.

(** *** [get_components] *)

Lemma get_components_spec repository_name token w :
  ∃ w1, get_components repository_name token w
          = (w1, Ok (served (head (pending_pages w)))) ∧
        pending_pages w1 = tail (pending_pages w) ∧
        requests w1 = requests w ++ [components_request repository_name token] ∧
        stats w1 = stats w ∧ fs w1 = fs w ∧ stdout w1 = stdout w ∧
        ticks w1 = ticks w ∧
        (if succeeded (head (pending_pages w)) then log w1 = log w
         else ∃ msg, log w1 = log w ++ [(ERROR, msg)]).
Proof.
  unfold get_components, try_except, bind, session_send, next_page_reply, await,
    logging_error, ret, raise, components_request.
  destruct w as [st ex disk lg out rqs pend tk]; simpl.
  destruct pend as [|[response|e] rest]; simpl.
  - eexists; split_and!; try done. eauto.
  - destruct (Z.eqb (status response) 200) eqn:Hst; simpl.
    + destruct (json response) as [page|e]; simpl.
      * eexists; split_and!; done.
      * eexists; split_and!; try done. eauto.
    + destruct (resp_text response) as [body|e]; simpl.
      * eexists; split_and!; try done. eauto.
      * eexists; split_and!; try done. eauto.
  - eexists; split_and!; try done. eauto.
Qed.

(** *** One round of the pagination loop *)

Lemma download_tasks_of_created repository_name page :
  download_tasks_of repository_name page = created repository_name (page_assets page).
Proof.
  unfold download_tasks_of, created, page_assets.
  induction (items page) as [|item rest IH]; [done|].
  simpl. by rewrite map_app, IH.
Qed.

Lemma asyncio_gather_nil pick w : asyncio_gather env pick [] w = Some (w, Ok tt).
Proof. done. Qed.

(** Lines 125-137: one pass through the body of [while True]. *)
Lemma pages_loop_round pick fuel repository_name token w :
  let page := served (head (pending_pages w)) in
  ∃ w1 w2,
    get_components repository_name token w = (w1, Ok page) ∧
    asyncio_gather env pick (created repository_name (page_assets page)) w1
      = Some (w2, Ok tt) ∧
    pages_loop env pick (S fuel) repository_name token w
      = (if truthy (continuationToken page)
         then pages_loop env pick fuel repository_name (continuationToken page) w2
         else Some (w2, Ok tt)) ∧
    pending_pages w2 = tail (pending_pages w) ∧
    page_requests w2 = page_requests w ++ [components_params repository_name token] ∧
    stats_le (stats w) (stats w2) ∧
    assets_of w2 repository_name
      = assets_of w repository_name
        + sum_Z outcome_assets (outcomes env (fs w) repository_name (page_assets page)) ∧
    bytes_of w2 repository_name
      = bytes_of w repository_name
        + sum_Z outcome_bytes (outcomes env (fs w) repository_name (page_assets page)) ∧
    (∀ r', r' ≠ repository_name → stats w2 !! r' = stats w !! r') ∧
    (page_assets page ≠ [] → is_Some (stats w2 !! repository_name)) ∧
    (page_assets page = [] → w2 = w1).
Proof.
  intros page.
  destruct (get_components_spec repository_name token w)
    as (w1 & Hget & Hpend & Hreq & Hstats & Hfs & Hout & Htk & Hlog).
  destruct (gather_counters pick repository_name (page_assets page) w1)
    as (w2 & Hg & Ha & Hb & He & Ho).
  exists w1, w2. fold page in Hget. split_and!; try done.
  - simpl. unfold pbind at 1, lift at 1. rewrite Hget.
    rewrite download_tasks_of_created.
    unfold pbind at 1.
    destruct (created repository_name (page_assets page)) eqn:Hc.
    + rewrite asyncio_gather_nil in Hg. injection Hg as <-.
      unfold lift at 1, ret at 1. by destruct (truthy _).
    + rewrite Hg. by destruct (truthy _).
  - rewrite <- Hpend.
    apply (asyncio_gather_rel (fun w w' => pending_pages w' = pending_pages w))
      with (pick := pick) (tasks := created repository_name (page_assets page)) (res := Ok tt);
      [done|congruence|intros; apply step_frame|done].
  - transitivity (page_requests w1).
    + apply (asyncio_gather_rel (fun w w' => page_requests w' = page_requests w))
        with (pick := pick) (tasks := created repository_name (page_assets page))
             (res := Ok tt);
        [done|congruence|intros; apply step_page_requests|done].
    + unfold page_requests. rewrite Hreq, omap_app. done.
  - rewrite <- Hstats.
    apply (asyncio_gather_rel (fun w w' => stats_le (stats w) (stats w')))
      with (pick := pick) (tasks := created repository_name (page_assets page)) (res := Ok tt);
      [intros; apply stats_le_refl|intros; by eapply stats_le_trans
      |intros; apply step_stats_le|done].
  - rewrite Ha. unfold assets_of. by rewrite Hstats, Hfs.
  - rewrite Hb. unfold bytes_of. by rewrite Hstats, Hfs.
  - intros r' Hne. rewrite Ho by done. by rewrite Hstats.
  - intros Hne. unfold asyncio_gather in Hg.
    destruct (start_tasks_created repository_name (page_assets page) w1)
      as (_ & _ & _ & S4 & _).
    specialize (S4 Hne).
    destruct (start_tasks env _ w1) as [w1' tasks1]. simpl in S4.
    assert (stats_le (stats w1')
              (stats (run_loop env pick (total_turns env tasks1) tasks1 w1').1)) as Hle
      by (apply (run_loop_rel (fun w w' => stats_le (stats w) (stats w')));
          [intros; apply stats_le_refl|intros; by eapply stats_le_trans
          |intros; apply step_stats_le]).
    destruct (run_loop env pick _ tasks1 w1') as [w2' tasks2]. simpl in Hle.
    destruct (forallb finished tasks2); [|done]. injection Hg as <-.
    destruct S4 as [s0 Hs0]. destruct (Hle _ _ Hs0) as (s' & Hs' & _). eauto.
  - intros Hnil. rewrite Hnil in Hg. simpl in Hg. rewrite asyncio_gather_nil in Hg.
    by injection Hg.
Qed.

(** The loop returns as soon as its fuel exceeds the replies left. *)
Lemma pages_loop_total pick fuel repository_name token w :
  (length (pending_pages w) < fuel)%nat →
  ∃ w', pages_loop env pick fuel repository_name token w = Some (w', Ok tt) ∧
        stats_le (stats w) (stats w') ∧
        (∀ r', r' ≠ repository_name → stats w' !! r' = stats w !! r').
Proof.
  revert token w. induction fuel as [|fuel IH]; intros token w Hfuel; [lia|].
  destruct (pages_loop_round pick fuel repository_name token w)
    as (w1 & w2 & Hget & Hg & Hloop & Hpend & Hreq & Hle & _ & _ & Ho & _).
  rewrite Hloop.
  destruct (truthy (continuationToken (served (head (pending_pages w))))) eqn:Htok.
  - destruct (pending_pages w) as [|reply rest] eqn:Hp; [done|].
    simpl in Hpend, Hfuel.
    destruct (IH (continuationToken (served (Some reply))) w2) as (w' & Hw' & Hle' & Ho');
      [rewrite Hpend; lia|].
    exists w'. split_and!; [done|by eapply stats_le_trans|].
    intros r' Hne. rewrite Ho' by done. by apply Ho.
  - exists w2. done.
Qed.

End StepFacts.

(** ** The skip policy *)

(** C2. [download_asset] skips an asset (no GET, no counter touched) if and
    only if a file exists at the destination, the asset declares a [fileSize]
    and the size on disk equals it; an asset that is not skipped has its GET
    sent (unless creating the directory fails).  With [fileSize = 1000]: 999
    bytes on disk are downloaded again and overwritten, 1000 bytes are
    skipped; without [fileSize] the file is downloaded again. *)
Theorem download_asset_skip_policy :
  (∀ env asset repository_name w,
     skips env asset repository_name w ↔
     ∃ content expected,
       fs w !! full_path_of repository_name (path asset) = Some content ∧
       fileSize asset = Some expected ∧
       Z.of_nat (length content) = expected) ∧
  (∀ env asset repository_name w,
     ¬ skips env asset repository_name w →
     fs_fault env (Makedirs (os_path_dirname (full_path_of repository_name (path asset))))
       = None →
     download_asset_step env (Created asset repository_name) w
       = (set_requests (fun l => l ++ [Get (downloadUrl asset)])
            (touch env repository_name w),
          AwaitingResponse asset repository_name
            (full_path_of repository_name (path asset)))) ∧
  observe "releases" jar_file
    (download_asset (serving 200 (replicate 1000 x01) None) (jar (Some 1000)) "releases"
       (with_jar_on_disk 999))
    = Some (Ok tt, [Get jar_url], Some (replicate 1000 x01), 1, 1000) ∧
  observe "releases" jar_file
    (download_asset (serving 200 (replicate 1000 x01) None) (jar (Some 1000)) "releases"
       (with_jar_on_disk 1000))
    = Some (Ok tt, [], Some (replicate 1000 x00), 0, 0) ∧
  observe "releases" jar_file
    (download_asset (serving 200 (replicate 1000 x01) None) (jar None) "releases"
       (with_jar_on_disk 1000))
    = Some (Ok tt, [Get jar_url], Some (replicate 1000 x01), 1, 1000).
Proof.
  assert (∀ env asset repository_name w,
            skips env asset repository_name w ↔
            skip_test (fs w) asset (full_path_of repository_name (path asset)) = true)
    as Hiff.
  { intros env asset r w. unfold skips. split.
    - intros (Ht & Hrq & Hlog & _).
      destruct (skip_test _ _ _) eqn:Hskip; [done|].
      destruct (touch_frame env r w) as (_ & Hl & _ & Hr & _).
      destruct (fs_fault env (Makedirs (os_path_dirname (full_path_of r (path asset)))))
        as [e|] eqn:Hf.
      + rewrite (step_created_makedirs_fault env _ _ _ _ Hskip Hf) in Hlog.
        simpl in Hlog. rewrite Hl in Hlog.
        apply (f_equal length) in Hlog. rewrite length_app in Hlog. simpl in Hlog. lia.
      + rewrite (step_created_sent env _ _ _ Hskip Hf) in Hrq.
        simpl in Hrq. rewrite Hr in Hrq.
        apply (f_equal length) in Hrq. rewrite length_app in Hrq. simpl in Hrq. lia.
    - intros Hskip. rewrite (step_created_skip env _ _ _ Hskip). simpl.
      destruct (touch_frame env r w) as (_ & Hl & _ & Hr & _).
      split_and!; try done. intros r'. apply touch_counters. }
  split_and!.
  - intros env asset r w. rewrite Hiff. unfold skip_test. split.
    + destruct (fs w !! _) as [content|]; [|done].
      destruct (fileSize asset) as [expected|]; [|done].
      intros H%Z.eqb_eq. eauto.
    + intros (content & expected & -> & -> & H). by apply Z.eqb_eq.
  - intros env asset r w Hns Hf. apply step_created_sent; [|done].
    destruct (skip_test _ _ _) eqn:Hskip; [|done].
    exfalso. apply Hns. by apply Hiff.
  - vm_compute. reflexivity.
  - vm_compute. reflexivity.
  - vm_compute. reflexivity.
Qed.

(** ** Listing the repositories *)

(** C4, as the code has it.  [get_repositories] returns the parsed listing
    exactly when the server answers with status 200 and a body that parses.
    On any other status it raises an error whose message carries the status
    code only; the response body goes to the error log, next to the status.
    When the request itself fails, that failure is logged and raised again. *)
Theorem get_repositories_outcomes (env : Env) (w : World) :
  (∀ repos,
     (get_repositories env w).2 = Ok repos ↔
     ∃ response, repositories_reply env = Ok response ∧ status response = 200 ∧
                 json response = Ok repos) ∧
  match repositories_reply env with
  | Ok response =>
      if Z.eqb (status response) 200 then (get_repositories env w).2 = json response
      else
        match resp_text response with
        | Ok body =>
            (get_repositories env w).2
              = Raise (Exception (failed_to_get_repositories (status response))) ∧
            log (get_repositories env w).1
              = log w ++ [(ERROR, failed_to_get_repositories (status response)
                                    ++ [Lit ", Response: "; StrV body]);
                          (ERROR, Lit "Error getting repositories: "
                                    :: failed_to_get_repositories (status response))]
        | Raise e => (get_repositories env w).2 = Raise e
        end
  | Raise e =>
      (get_repositories env w).2 = Raise e ∧
      log (get_repositories env w).1
        = log w ++ [(ERROR, Lit "Error getting repositories: " :: str e)]
  end.
Proof.
  unfold get_repositories, try_except, bind, session_send, await, logging_error, ret, raise.
  destruct (repositories_reply env) as [response|e]; simpl.
  - destruct (Z.eqb (status response) 200) eqn:Hst; simpl.
    + apply Z.eqb_eq in Hst. destruct (json response) as [repos|e] eqn:Hj; simpl.
      * split; [|done]. intros repos'. split.
        -- intros [= <-]. eauto.
        -- intros (response' & [= <-] & _ & H). congruence.
      * split; [|done]. intros repos'. split; [done|].
        intros (response' & [= <-] & _ & H). congruence.
    + apply Z.eqb_neq in Hst. destruct (resp_text response) as [body|e]; simpl.
      * split; [|split; [done|by rewrite <- app_assoc]]. intros repos'. split; [done|].
        intros (response' & [= <-] & H & _). done.
      * split; [|done]. intros repos'. split; [done|].
        intros (response' & [= <-] & H & _). done.
  - split; [|done]. intros repos'. split; [done|]. intros (response' & H & _). done.
Qed.

(** C4, the sentence of the specification fails twice: with status 500 and
    body [internal error] the raised error carries the status but not the
    body; and with no response at all (the connection fails) the call raises
    although no non-success status was received. *)
Lemma get_repositories_error_lacks_body :
  (∃ msg, (get_repositories (listing 500 (Raise unreachable) "internal error")
             fresh_world).2 = Raise (Exception msg) ∧
          In (IntV 500) msg ∧ ¬ In (StrV "internal error") msg) ∧
  (get_repositories (serving 200 [] None) fresh_world).2 = Raise unreachable.
Proof.
  split; [|done].
  eexists. split; [vm_compute; reflexivity|]. split.
  - simpl. auto.
  - simpl. intros [H|[H|[]]]; discriminate.
Qed.

(** ** Fetching a page *)

(** C5. [get_components] never raises when the request does not succeed: it
    logs one error and returns the empty page, and the pagination loop of
    the repository stops there, normally. *)
Theorem get_components_degrades (env : Env) (pick : World → list Task → nat)
    (fuel : nat) (repository_name : string) (token : option string) (w : World) :
  components_request_fails w →
  ∃ w' msg,
    get_components repository_name token w = (w', Ok empty_page) ∧
    log w' = log w ++ [(ERROR, msg)] ∧
    pages_loop env pick (S fuel) repository_name token w = Some (w', Ok tt).
Proof.
  intros Hfail.
  destruct (pages_loop_round env pick fuel repository_name token w)
    as (w1 & w2 & Hget & _ & Hloop & _ & _ & _ & _ & _ & _ & _ & Hnil).
  destruct (get_components_spec repository_name token w)
    as (w1' & Hget' & _ & _ & _ & _ & _ & _ & Hlog).
  rewrite Hget in Hget'. injection Hget' as <-.
  assert (served (head (pending_pages w)) = empty_page ∧
          succeeded (head (pending_pages w)) = false) as [Hpage Hsucc].
  { unfold components_request_fails in Hfail. unfold served, succeeded.
    destruct (head (pending_pages w)) as [[response|e]|]; try done.
    apply Z.eqb_neq in Hfail. by rewrite Hfail. }
  rewrite Hpage in *. rewrite Hsucc in Hlog. destruct Hlog as [msg Hlog].
  specialize (Hnil eq_refl). subst w2.
  exists w1, msg. done.
Qed.

(** The hypothesis of the theorem is met by a server that answers 503. *)
Lemma get_components_degrades_witness :
  ∃ w' msg,
    get_components "releases" None (answering [unavailable]) = (w', Ok empty_page) ∧
    log w' = log (answering [unavailable]) ++ [(ERROR, msg)] ∧
    pages_loop (serving 200 [] None) (fun _ _ => 0%nat) 1 "releases" None
      (answering [unavailable]) = Some (w', Ok tt).
Proof.
  apply (get_components_degrades (serving 200 [] None) (fun _ _ => 0%nat) 0 "releases" None
           (answering [unavailable])).
  unfold components_request_fails. simpl. discriminate.
Defined.

(** ** Pagination *)

Section Pagination.

Variable env : Env.
Variable pick : World → list Task → nat.

Lemma pages_loop_follows_tokens repository_name more final rest :
  ∀ token w fuel,
    pending_pages w = more ++ final :: rest →
    Forall (fun reply => truthy (next_token reply) = true) more →
    truthy (next_token final) = false →
    (length more < fuel)%nat →
    ∃ w', pages_loop env pick fuel repository_name token w = Some (w', Ok tt) ∧
          pending_pages w' = rest ∧
          page_requests w'
            = page_requests w
              ++ map (components_params repository_name) (token :: map next_token more).
Proof.
  induction more as [|reply more IH]; intros token w fuel Hpend Hmore Hfinal Hfuel;
    (destruct fuel as [|fuel]; [simpl in Hfuel; lia|]);
    destruct (pages_loop_round env pick fuel repository_name token w)
      as (w1 & w2 & _ & _ & Hloop & Hp & Hreq & _).
  - assert (head (pending_pages w) = Some final) as Hh by (by rewrite Hpend).
    assert (tail (pending_pages w) = rest) as Ht by (by rewrite Hpend).
    rewrite Hh in Hloop. rewrite Ht in Hp.
    unfold next_token in Hfinal. rewrite Hfinal in Hloop. exists w2. done.
  - assert (head (pending_pages w) = Some reply) as Hh by (by rewrite Hpend).
    assert (tail (pending_pages w) = more ++ final :: rest) as Ht by (by rewrite Hpend).
    rewrite Hh in Hloop. rewrite Ht in Hp.
    inversion Hmore as [|? ? Hreply Hmore']; subst.
    unfold next_token in Hreply. rewrite Hreply in Hloop.
    destruct (IH (continuationToken (served (Some reply))) w2 fuel Hp Hmore' Hfinal)
      as (w' & Hw' & Hrest & Hreq'); [simpl in Hfuel; lia|].
    exists w'. rewrite Hloop. split_and!; [done|done|].
    rewrite Hreq', Hreq. rewrite <- app_assoc. done.
Qed.

End Pagination.

(** C6, as the code has it.  Let the endpoint answer with [N] replies whose
    page carries a continuation token that is neither null nor empty,
    followed by a reply whose page carries none (null, or the empty string,
    or no page at all).  Then the loop of [process_repository] returns after
    exactly [N + 1] requests: the first without a token, each later one with
    the token of the page before it; the replies after these stay unread. *)
Theorem pages_loop_visits_each_page (env : Env) (pick : World → list Task → nat)
    (repository_name : string) (more : list (result (Response Page)))
    (final : result (Response Page)) (rest : list (result (Response Page))) (w : World) :
  pending_pages w = more ++ final :: rest →
  Forall (fun reply => truthy (next_token reply) = true) more →
  truthy (next_token final) = false →
  ∃ w',
    pages_loop env pick (S (length (pending_pages w))) repository_name None w
      = Some (w', Ok tt) ∧
    pending_pages w' = rest ∧
    page_requests w'
      = page_requests w
        ++ map (components_params repository_name) (None :: map next_token more) ∧
    length (page_requests w') = (length (page_requests w) + (length more + 1))%nat ∧
    components_params repository_name None = [("repository", repository_name)] ∧
    Forall (fun reply =>
              ∃ t, next_token reply = Some t ∧
                   components_params repository_name (next_token reply)
                     = [("repository", repository_name); ("continuationToken", t)]) more.
Proof.
  intros Hpend Hmore Hfinal.
  destruct (pages_loop_follows_tokens env pick repository_name more final rest None w
              (S (length (pending_pages w))) Hpend Hmore Hfinal) as (w' & Hw' & Hrest & Hreq).
  { rewrite Hpend, length_app. simpl. lia. }
  exists w'. split_and!; try done.
  - rewrite Hreq, length_app. simpl. rewrite !length_map. lia.
  - eapply Forall_impl; [exact Hmore|]. intros reply Ht. simpl in Ht.
    unfold components_params. rewrite Ht.
    destruct (next_token reply) as [t|]; [|done]. exists t. done.
Qed.

(** The hypotheses of the theorem are met by two pages with tokens [t1] and
    [t2] and a third page without one. *)
Lemma pages_loop_visits_each_page_witness :
  ∃ w',
    pages_loop (serving 200 [] None) (fun _ _ => 0%nat)
      (S (length (pending_pages (answering (two_tokens ++ [last_page])))))
      "releases" None (answering (two_tokens ++ [last_page]))
      = Some (w', Ok tt) ∧
    pending_pages w' = [] ∧
    page_requests w'
      = page_requests (answering (two_tokens ++ [last_page]))
        ++ map (components_params "releases") (None :: map next_token two_tokens) ∧
    length (page_requests w')
      = (length (page_requests (answering (two_tokens ++ [last_page])))
         + (length two_tokens + 1))%nat ∧
    components_params "releases" None = [("repository", "releases")] ∧
    Forall (fun reply =>
              ∃ t, next_token reply = Some t ∧
                   components_params "releases" (next_token reply)
                     = [("repository", "releases"); ("continuationToken", t)]) two_tokens.
Proof.
  apply (pages_loop_visits_each_page (serving 200 [] None) (fun _ _ => 0%nat) "releases"
           two_tokens last_page [] (answering (two_tokens ++ [last_page]))).
  - reflexivity.
  - repeat constructor.
  - reflexivity.
Defined.

(** C6, the sentence of the specification fails for a token that is not null
    but empty: of two pages, the first with the empty string as its token and
    the second with a null token, the loop requests the first one only. *)
Lemma empty_token_ends_pagination_early :
  continuationToken {| items := []; continuationToken := Some EmptyString |} ≠ None ∧
  continuationToken {| items := []; continuationToken := None |} = None ∧
  option_map (fun x => (x.2, page_requests x.1, length (pending_pages x.1)))
    (pages_loop (serving 200 [] None) (fun _ _ => 0%nat) 3 "releases" None
       (answering [page_reply {| items := []; continuationToken := Some EmptyString |};
                   page_reply {| items := []; continuationToken := None |}]))
    = Some (Ok tt, [[("repository", "releases")]], 1%nat).
Proof. split_and!; [done|done|vm_compute; reflexivity]. Qed.

(** C10. Pagination ends on any falsy token: when the page that comes back
    carries no token or the empty string, the loop returns after that one
    request and leaves the later replies unread.  And a falsy token is never
    sent: the request then has the [repository] parameter only, while a
    non-empty token is sent as [continuationToken]. *)
Theorem falsy_token_ends_pagination :
  truthy None = false ∧ truthy (Some EmptyString) = false ∧
  (∀ s, s ≠ EmptyString → truthy (Some s) = true) ∧
  (∀ env pick fuel repository_name token w,
     truthy (continuationToken (served (head (pending_pages w)))) = false →
     ∃ w', pages_loop env pick (S fuel) repository_name token w = Some (w', Ok tt) ∧
           pending_pages w' = tail (pending_pages w) ∧
           page_requests w' = page_requests w ++ [components_params repository_name token]) ∧
  (∀ repository_name token w,
     requests (get_components repository_name token w).1
       = requests w
         ++ [GetParams (String.append NEXUS_URL "/service/rest/v1/components")
               (match token with
                | Some s => if String.eqb s EmptyString
                            then [("repository", repository_name)]
                            else [("repository", repository_name); ("continuationToken", s)]
                | None => [("repository", repository_name)]
                end)]) ∧
  option_map (fun x => (x.2, requests x.1, length (pending_pages x.1)))
    (pages_loop (serving 200 [] None) (fun _ _ => 0%nat) 3 "releases" (Some EmptyString)
       (answering [page_reply {| items := []; continuationToken := Some EmptyString |};
                   last_page]))
    = Some (Ok tt,
            [GetParams "http://localhost:8081/service/rest/v1/components"
               [("repository", "releases")]],
            1%nat).
Proof.
  split_and!; try done.
  - intros s Hs. simpl. apply negb_true_iff. by apply String.eqb_neq.
  - intros env pick fuel repository_name token w Hfalsy.
    destruct (pages_loop_round env pick fuel repository_name token w)
      as (w1 & w2 & _ & _ & Hloop & Hp & Hreq & _).
    rewrite Hfalsy in Hloop. exists w2. done.
  - intros repository_name token w.
    destruct (get_components_spec repository_name token w) as (w1 & Hget & _ & Hreq & _).
    rewrite Hget. simpl. rewrite Hreq. unfold components_request, components_params.
    destruct token as [s|]; [|done]. simpl. by destruct (String.eqb s EmptyString).
Qed.

Lemma in_flight_map {A} (f : A → Task) (l : list A) :
  in_flight (map f l) = length (List.filter (fun a => suspended (f a)) l).
Proof.
  unfold in_flight. induction l as [|a l IH]; [done|].
  simpl. destruct (suspended (f a)); simpl; by rewrite IH.
Qed.

(** ** The concurrency ceiling *)

(** C1, what the code does.  After the first pass of the event loop over the
    tasks handed to [gather], every asset of the page that is not skipped
    (and whose directory could be made) has its transfer in flight: on an
    empty disk that is the whole page.  For a page of 11 assets, 11 transfers
    are in flight at once, above [MAX_CONCURRENT_DOWNLOADS]; the executor
    built from that constant is still there, and no turn of a download ever
    looks at it. *)
Theorem gather_starts_every_transfer :
  (∀ env r batch w,
     in_flight (start_tasks env (created r batch) w).2
       = length (List.filter (fun a => suspended (started env (fs w) r a)) batch)) ∧
  (∀ env r batch w,
     fs w = ∅ → (∀ op, fs_fault env op = None) →
     in_flight (start_tasks env (created r batch) w).2 = length batch) ∧
  Z.of_nat (in_flight (start_tasks (serving 200 [x01] None)
                         (created "releases" eleven) fresh_world).2) = 11 ∧
  MAX_CONCURRENT_DOWNLOADS = 10 ∧
  executor_max_workers
    (start_tasks (serving 200 [x01] None) (created "releases" eleven) fresh_world).1
    = Some MAX_CONCURRENT_DOWNLOADS.
Proof.
  assert (∀ env r batch w,
     in_flight (start_tasks env (created r batch) w).2
       = length (List.filter (fun a => suspended (started env (fs w) r a)) batch)) as Hgen.
  { intros env r batch w.
    destruct (start_tasks_created env r batch w) as (-> & _). apply in_flight_map. }
  split_and!; try done.
  - intros env r batch w Hfs Hfault. rewrite Hgen.
    assert (∀ a, suspended (started env (fs w) r a) = true) as Hs.
    { intros a. unfold started, skip_test. by rewrite Hfs, lookup_empty, Hfault. }
    f_equal. induction batch as [|a rest IH]; [done|].
    cbn [List.filter]. by rewrite Hs, IH.
Qed.

(** ** Chunks *)

Lemma chunked_concat fuel n content :
  (0 < n)%nat → (length content ≤ fuel)%nat → concat (chunked fuel n content) = content.
Proof.
  intros Hn. revert content. induction fuel as [|fuel IH]; intros content Hlen.
  - destruct content; [done|simpl in Hlen; lia].
  - destruct content as [|b content]; [done|].
    cbn [chunked concat]. rewrite IH; [apply take_drop|].
    rewrite length_drop. simpl in *. lia.
Qed.



(** ** Failures stay where they happen *)

(** C3, as the code has it.  Whatever the assets of a batch run into, and in
    whatever order the network wakes their tasks, awaiting the batch returns
    without an exception.  An asset adds one to [downloaded_assets] exactly
    when its own download completes, a failed one logs one error, and the
    outcome of an asset does not depend on its siblings.  A download that
    fails before any chunk is written (the connection fails, the status is
    not 200, the directory or the file cannot be made) leaves both counters
    as they were; one that fails in mid-stream leaves [downloaded_size]
    raised by the chunks already written.  In a batch of five whose third
    asset gets a 404, [downloaded_assets] ends at 4 with one error logged. *)
Theorem failed_download_is_isolated :
  (∀ env pick r batch w,
     ∃ w', asyncio_gather env pick (created r batch) w = Some (w', Ok tt) ∧
           assets_of w' r
             = assets_of w r + sum_Z outcome_assets (outcomes env (fs w) r batch) ∧
           bytes_of w' r
             = bytes_of w r + sum_Z outcome_bytes (outcomes env (fs w) r batch) ∧
           length (errors (log w'))
             = (length (errors (log w))
                + sum_nat outcome_errors (outcomes env (fs w) r batch))%nat ∧
           (∀ r', r' ≠ r → stats w' !! r' = stats w !! r')) ∧
  (∀ env disk r a,
     skip_test disk a (full_path_of r (path a)) = false →
     match asset_reply env (downloadUrl a) with
     | Ok d => dl_status d ≠ 200
     | Raise _ => True
     end ∨ fs_fault env (Makedirs (os_path_dirname (full_path_of r (path a)))) ≠ None
       ∨ fs_fault env (OpenWb (full_path_of r (path a))) ≠ None →
     outcome env disk r a = Failed 0) ∧
  (∀ env a r w b,
     outcome env (fs w) r a = Failed b →
     ∃ w', download_asset env a r w = Some (w', Ok tt) ∧
           assets_of w' r = assets_of w r ∧
           bytes_of w' r = bytes_of w r + b ∧
           length (errors (log w')) = S (length (errors (log w)))) ∧
  (∀ pick,
     ∃ w', asyncio_gather third_is_missing pick (created "releases" five) fresh_world
             = Some (w', Ok tt) ∧
           assets_of w' "releases" = 4 ∧ length (errors (log w')) = 1%nat).
Proof.
  split_and!.
  - intros env pick r batch w. apply gather_counters.
  - intros env disk r a Hskip Hfail. unfold outcome. rewrite Hskip.
    destruct (fs_fault env (Makedirs _)) as [e|]; [done|]. simpl.
    destruct (asset_reply env (downloadUrl a)) as [d|e]; [|done].
    destruct (Z.eqb (dl_status d) 200) eqn:Hst; [|done].
    apply Z.eqb_eq in Hst.
    destruct (fs_fault env (OpenWb _)) as [e|]; [done|].
    destruct Hfail as [H|[H|H]]; done.
  - intros env a r w b Hb. unfold download_asset.
    destruct (gather_counters env (fun _ _ => 0%nat) r [a] w) as (w' & Hg & Ha & Hbytes & He & _).
    exists w'. split; [done|].
    unfold outcomes in *. simpl in *. rewrite Hb in *. simpl in *.
    split_and!; lia.
  - intros pick.
    destruct (gather_counters third_is_missing pick "releases" five fresh_world)
      as (w' & Hg & Ha & _ & He & _).
    exists w'. split; [done|]. rewrite Ha, He. split; vm_compute; reflexivity.
Qed.

(** C3, the sentence of the specification fails for a download that breaks
    in mid-stream: the response has status 200 and ten bytes arrive and are
    written before the connection drops.  The failure is logged and nothing
    is raised, [downloaded_assets] stays at 0, but [downloaded_size] is 10
    where it was 0. *)
Lemma broken_stream_keeps_bytes_counted :
  bytes_of fresh_world "releases" = 0 ∧
  observe_errors "releases"
    (download_asset (serving 200 (replicate 10 x01) (Some unreachable)) (jar None)
       "releases" fresh_world)
    = Some (Ok tt, 1%nat, 0, 10).
Proof. split; [done|]. vm_compute. reflexivity. Qed.

(** ** Counting what was downloaded *)


(** ** The driver *)

Section Driver.

Variable env : Env.
Variable pick : World → list Task → nat.

Lemma repository_summary_spec repository_name w :
  match stats w !! repository_name with
  | None => repository_summary env repository_name w = (w, Ok tt)
  | Some s =>
      ∃ w', repository_summary env repository_name w = (w', Ok tt) ∧
            stats w' = stats w ∧
            stdout w' = stdout w
                          ++ summary_lines repository_name s
                               (clock env (ticks w) - start_time s)%Q
  end.
Proof.
  unfold repository_summary.
  destruct (stats w !! repository_name) as [s|] eqn:Hs; [|done].
  unfold bind, time_time, stats_get, print. simpl. rewrite Hs. simpl.
  eexists. split_and!; [done|done|]. simpl. by rewrite <- !app_assoc.
Qed.

Lemma repository_summary_stats repository_name w :
  stats (repository_summary env repository_name w).1 = stats w ∧
  (repository_summary env repository_name w).2 = Ok tt.
Proof.
  pose proof (repository_summary_spec repository_name w) as Hsum.
  destruct (stats w !! repository_name).
  - destruct Hsum as (w' & Hw' & Hst & _). by rewrite Hw'.
  - by rewrite Hsum.
Qed.

Lemma pages_loop_entry fuel repository_name token w :
  (length (pending_pages w) < fuel)%nat →
  ∃ w', pages_loop env pick fuel repository_name token w = Some (w', Ok tt) ∧
        (is_Some (stats w' !! repository_name) ↔
         is_Some (stats w !! repository_name) ∨
         flat_map page_assets (visited (pending_pages w)) ≠ []).
Proof.
  revert token w. induction fuel as [|fuel IH]; intros token w Hfuel; [lia|].
  destruct (pages_loop_round env pick fuel repository_name token w)
    as (w1 & w2 & Hget & Hg & Hloop & Hpend & _ & Hle & _ & _ & _ & Hsome & Hnil).
  destruct (get_components_spec repository_name token w)
    as (w1' & Hget' & _ & _ & Hstats & _).
  rewrite Hget in Hget'. injection Hget' as <-.
  rewrite Hloop. clear Hloop Hget Hg.
  assert (is_Some (stats w2 !! repository_name) ↔
          is_Some (stats w !! repository_name) ∨
          page_assets (served (head (pending_pages w))) ≠ []) as Hround.
  { destruct (page_assets (served (head (pending_pages w)))) as [|a l] eqn:Hpa.
    - rewrite (Hnil eq_refl), Hstats. split; [by left|by intros [?|?]].
    - split; [right; done|]. intros _. by apply Hsome. }
  destruct (pending_pages w) as [|reply rest] eqn:Hp.
  - exists w2. split; [done|]. exact Hround.
  - change (head (reply :: rest)) with (Some reply) in *.
    change (tail (reply :: rest)) with rest in *.
    cbn [length] in Hfuel. cbn [visited flat_map].
    assert (∀ (l1 l2 : list Asset), l1 ++ l2 ≠ [] ↔ l1 ≠ [] ∨ l2 ≠ []) as Happ.
    { intros [|a l1] l2; simpl; (split; [auto|intros [?|?]; done]). }
    destruct (truthy (continuationToken (served (Some reply)))).
    + destruct (IH (continuationToken (served (Some reply))) w2) as (w' & Hw' & Hiff);
        [rewrite Hpend; lia|].
      exists w'. split; [done|]. rewrite Hiff, Hround, Hpend, Happ. tauto.
    + exists w2. split; [done|]. rewrite Hround, Happ. simpl. tauto.
Qed.

(** [process_repository] always returns, without an exception.  When the
    directory of the repository can be made, the pages are drained and then
    the summary is printed, if the repository has an entry in [self.stats]. *)
Lemma process_repository_spec repository w :
  let repository_name := name repository in
  match fs_fault env (Makedirs (os_path_join BASE_OUTPUT_DIR [repository_name])) with
  | Some e =>
      process_repository env pick repository w
        = Some (set_log (fun l => l ++ [(ERROR, [Lit "Error processing repository ";
                                                 StrV repository_name; Lit ": "] ++ str e)])
                  (announced repository_name w), Ok tt)
  | None =>
      ∃ w1, pages_loop env pick (S (length (pending_pages w))) repository_name None
              (announced repository_name w) = Some (w1, Ok tt) ∧
            process_repository env pick repository w
              = Some ((repository_summary env repository_name w1).1, Ok tt) ∧
            stats_le (stats w) (stats w1) ∧
            (∀ r', r' ≠ repository_name → stats w1 !! r' = stats w !! r') ∧
            (is_Some (stats w1 !! repository_name) ↔
             is_Some (stats w !! repository_name) ∨
             flat_map page_assets (visited (pending_pages w)) ≠ [])
  end.
Proof.
  intros repository_name.
  assert (pending_pages (announced repository_name w) = pending_pages w) as Hpp by done.
  destruct (fs_fault env (Makedirs _)) as [e|] eqn:Hf.
  - unfold process_repository, p_try_except, pbind, lift, print, logging_info,
      logging_error, os_makedirs.
    fold repository_name. by rewrite Hf.
  - destruct (pages_loop_total env pick (S (length (pending_pages w))) repository_name None
                (announced repository_name w)) as (w1 & Hw1 & Hle & Ho); [rewrite Hpp; lia|].
    destruct (pages_loop_entry (S (length (pending_pages w))) repository_name None
                (announced repository_name w)) as (w1' & Hw1' & Hiff); [rewrite Hpp; lia|].
    rewrite Hw1 in Hw1'. injection Hw1' as <-.
    exists w1. split_and!; try done.
    unfold process_repository, p_try_except, pbind, lift, print, logging_info,
      logging_error, os_makedirs.
    fold repository_name. rewrite Hf.
    match goal with
    | |- context [pages_loop ?e ?p ?f ?n ?t ?x] =>
        replace (pages_loop e p f n t x) with (Some (w1, Ok tt)) by (symmetry; exact Hw1)
    end.
    destruct (repository_summary_stats repository_name w1) as [_ Hok].
    destruct (repository_summary env repository_name w1) as [w' res].
    simpl in Hok. by subst res.
Qed.

Lemma process_repository_total repository w :
  ∃ w', process_repository env pick repository w = Some (w', Ok tt) ∧
        stats_le (stats w) (stats w') ∧
        (∀ r', r' ≠ name repository → stats w' !! r' = stats w !! r').
Proof.
  pose proof (process_repository_spec repository w) as H. cbv zeta in H.
  destruct (fs_fault env (Makedirs _)) as [e|].
  - eexists. split; [exact H|]. split; [apply stats_le_refl|done].
  - destruct H as (w1 & _ & -> & Hle & Ho & _).
    eexists. split; [done|].
    destruct (repository_summary_stats (name repository) w1) as [-> _]. done.
Qed.

Lemma for_each_repository_total repositories w :
  ∃ w', for_each_repository env pick repositories w = Some (w', Ok tt) ∧
        stats_le (stats w) (stats w') ∧
        (∀ r', r' ∉ map name repositories → stats w' !! r' = stats w !! r').
Proof.
  revert w. induction repositories as [|repo rest IH]; intros w.
  - exists w. split; [done|]. split; [apply stats_le_refl|done].
  - destruct (process_repository_total repo w) as (w1 & H1 & Hle1 & Ho1).
    destruct (IH w1) as (w' & H' & Hle' & Ho').
    exists w'. simpl. unfold pbind at 1. rewrite H1. split; [done|].
    split; [by eapply stats_le_trans|].
    intros r' Hr'. simpl in Hr'. apply not_elem_of_cons in Hr' as [Hne Hr'].
    rewrite Ho' by done. by apply Ho1.
Qed.

(** [export_all] always returns; only a failure to make the output directory
    leaves it with an exception. *)
Lemma export_all_total w :
  ∃ w' res, export_all env pick w = Some (w', res) ∧
            stats_le (stats w) (stats w') ∧
            (fs_fault env (Makedirs BASE_OUTPUT_DIR) = None → res = Ok tt).
Proof.
  unfold export_all, pbind at 1, lift at 1, os_makedirs.
  destruct (fs_fault env (Makedirs BASE_OUTPUT_DIR)) as [e|].
  - eexists _, _. split; [done|]. split; [apply stats_le_refl|done].
  - unfold p_try_except, pbind, lift at 1.
    assert (stats (get_repositories env w).1 = stats w) as Hst.
    { unfold get_repositories, try_except, bind, session_send, await, logging_error,
        ret, raise.
      destruct (repositories_reply env) as [response|e]; simpl; [|done].
      destruct (Z.eqb (status response) 200); simpl.
      - by destruct (json response).
      - by destruct (resp_text response). }
    destruct (get_repositories env w) as [w0 [repos|e]]; simpl in Hst.
    + destruct repos as [|repo rest].
      * eexists _, _. split; [done|]. simpl. rewrite Hst. split; [apply stats_le_refl|done].
      * destruct (for_each_repository_total (repo :: rest) w0) as (w' & -> & Hle & _).
        exists w', (Ok tt). rewrite <- Hst. done.
    + eexists _, _. split; [done|]. simpl. rewrite Hst. split; [apply stats_le_refl|done].
Qed.

End Driver.

Lemma overall_summary_spec duration w :
  ∃ w', overall_summary duration w = (w', Ok tt) ∧ stats w' = stats w ∧
        stdout w' = stdout w ++ overall_lines (stats w) duration.
Proof.
  unfold overall_summary, overall_lines, bind, print, logging_info, ret. simpl.
  destruct (Qle_bool duration 0); simpl; eexists; (split_and!; [done|done|]); simpl;
    by rewrite <- !app_assoc.
Qed.

(** [main] returns what [export_all] leaves, with the overall summary after
    it. *)
Lemma main_spec env pick w :
  ∃ w1 res, export_all env pick (launched w) = Some (w1, res) ∧
            stats_le ∅ (stats w1) ∧
            (fs_fault env (Makedirs BASE_OUTPUT_DIR) = None → res = Ok tt) ∧
            match res with
            | Ok _ =>
                ∃ w', main env pick w = Some (w', Ok tt) ∧ stats w' = stats w1 ∧
                      stdout w' = stdout w1
                                    ++ overall_lines (stats w1)
                                         (clock env (ticks w1) - clock env (ticks w))%Q
            | Raise e => main env pick w = Some (w1, Raise e)
            end.
Proof.
  destruct (export_all_total env pick (launched w)) as (w1 & res & Hex & Hle & Hres).
  exists w1, res. split_and!; try done.
  assert (main env pick w =
          match export_all env pick (launched w) with
          | Some (w1, Ok _) =>
              Some (overall_summary (clock env (ticks w1) - clock env (ticks w))%Q
                      (set_ticks (S (ticks w1)) w1))
          | Some (w1, Raise e) => Some (w1, Raise e)
          | None => None
          end) as Hmain.
  { reflexivity. }
  rewrite Hmain, Hex. destruct res as [[]|e]; [|done].
  destruct (overall_summary_spec (clock env (ticks w1) - clock env (ticks w))%Q
              (set_ticks (S (ticks w1)) w1)) as (w' & -> & Hst & Hout).
  exists w'. done.
Qed.

Lemma total_files_sum m :
  total_files m = sum_Z (fun e => downloaded_assets e.2) (map_to_list m) ∧
  total_size m = sum_Z (fun e => downloaded_size e.2) (map_to_list m).
Proof.
  unfold total_files, total_size. rewrite !map_fold_foldr. unfold sum_Z.
  induction (map_to_list m) as [|[k s] l [IH1 IH2]]; [done|]. simpl. by rewrite IH1, IH2.
Qed.

(** ** The summaries *)

(** C8, as the code has it.  [process_repository] drains the pages of the
    repository and then prints its summary (files, MB, MB/s) when, and only
    when, the repository has an entry in [self.stats]: it has one if it had
    one before or if a page that was visited held an asset.  The final
    summary of [main] reports the number of entries of [self.stats] as
    repositories processed, and the sums of the two counters over these
    entries. *)
Theorem summaries_follow_stats :
  (∀ env pick repository w,
     fs_fault env (Makedirs (os_path_join BASE_OUTPUT_DIR [name repository])) = None →
     ∃ w1 w',
       pages_loop env pick (S (length (pending_pages w))) (name repository) None
         (announced (name repository) w) = Some (w1, Ok tt) ∧
       process_repository env pick repository w = Some (w', Ok tt) ∧
       stats w' = stats w1 ∧
       (is_Some (stats w1 !! name repository) ↔
        is_Some (stats w !! name repository) ∨
        flat_map page_assets (visited (pending_pages w)) ≠ []) ∧
       stdout w' = stdout w1
                     ++ match stats w1 !! name repository with
                        | Some s => summary_lines (name repository) s
                                      (clock env (ticks w1) - start_time s)%Q
                        | None => []
                        end) ∧
  (∀ env pick w,
     fs_fault env (Makedirs BASE_OUTPUT_DIR) = None →
     ∃ w' out duration,
       main env pick w = Some (w', Ok tt) ∧
       stdout w' = out ++ overall_lines (stats w') duration) ∧
  (∀ m, total_files m = sum_Z (fun e => downloaded_assets e.2) (map_to_list m) ∧
        total_size m = sum_Z (fun e => downloaded_size e.2) (map_to_list m)).
Proof.
  split_and!.
  - intros env pick repository w Hf.
    pose proof (process_repository_spec env pick repository w) as H. cbv zeta in H.
    rewrite Hf in H. destruct H as (w1 & Hloop & Hproc & _ & _ & Hiff).
    pose proof (repository_summary_spec env (name repository) w1) as Hsum.
    exists w1, (repository_summary env (name repository) w1).1.
    split_and!; try done.
    + apply repository_summary_stats.
    + destruct (stats w1 !! name repository) as [s|].
      * destruct Hsum as (w' & -> & _ & Hout). done.
      * rewrite Hsum. simpl. by rewrite app_nil_r.
  - intros env pick w Hf.
    destruct (main_spec env pick w) as (w1 & res & _ & _ & Hres & Hmain).
    rewrite (Hres Hf) in Hmain. destruct Hmain as (w' & Hw' & Hst & Hout).
    exists w', (stdout w1), (clock env (ticks w1) - clock env (ticks w))%Q.
    split; [done|]. by rewrite Hst.
  - apply total_files_sum.
Qed.

(** C8, the sentence of the specification fails for a repository without
    assets.  The listing holds one repository, [empty], whose only page has
    no items.  The repository is processed, yet its summary is not printed,
    and the final summary counts 0 repositories processed.  (Lines that print
    a float are left out of the comparison.) *)
Lemma empty_repository_is_not_reported :
  option_map (fun x => (x.2, List.filter has_no_float (stdout x.1)))
    (main (listing 200 (Ok [ {| name := "empty" |} ]) EmptyString) (fun _ _ => 0%nat)
       (answering [last_page]))
  = Some (Ok tt,
          [[Lit "Starting Nexus export from: "; StrV "http://localhost:8081"];
           [Lit "Base output directory: "; StrV "nexus_artifacts"];
           [NL; Lit "Processing repository: "; StrV "empty"];
           [NL; Lit "Overall Export Summary:"];
           [Lit "Total repositories processed: "; IntV 0];
           [Lit "Total files downloaded: "; IntV 0]]).
Proof. vm_compute. reflexivity. Qed.

(** ** The counters over the run *)

Lemma step_suspended_dom env t w :
  suspended t = true → dom (stats (download_asset_step env t w).1) = dom (stats w).
Proof.
  intros Hs. step_cases t; try done;
    rewrite dom_insert_lookup_L; eauto.
Qed.

Lemma step_created_stats env a r w :
  stats (download_asset_step env (Created a r) w).1 !! r
    = Some (default {| downloaded_assets := 0; downloaded_size := 0;
                       start_time := clock env (ticks w) |} (stats w !! r)).
Proof.
  assert (stats (download_asset_step env (Created a r) w).1 = stats (touch env r w)) as ->.
  { destruct (skip_test (fs w) a (full_path_of r (path a))) eqn:Hskip.
    - by rewrite (step_created_skip env _ _ _ Hskip).
    - destruct (fs_fault env (Makedirs (os_path_dirname (full_path_of r (path a)))))
        as [e|] eqn:Hf.
      + by rewrite (step_created_makedirs_fault env _ _ _ _ Hskip Hf).
      + by rewrite (step_created_sent env _ _ _ Hskip Hf). }
  rewrite touch_stats. destruct (stats w !! r) eqn:H; [done|].
  by rewrite lookup_insert_eq.
Qed.

(** C9. Over the whole run the entry of a repository, once made, is never
    dropped or made again, and its two counters never decrease: this holds
    for every turn of every download, for every batch, every repository and
    the whole of [export_all].  An entry is made in the first turn of a
    download for a repository that has none, with both counters at zero;
    later turns and [get_components] leave the set of entries as it is. *)
Theorem counters_never_decrease :
  (∀ env t w, stats_le (stats w) (stats (download_asset_step env t w).1)) ∧
  (∀ env pick tasks w,
     ∀ w' res, asyncio_gather env pick tasks w = Some (w', res) →
               stats_le (stats w) (stats w')) ∧
  (∀ env pick repository w,
     ∃ w', process_repository env pick repository w = Some (w', Ok tt) ∧
           stats_le (stats w) (stats w')) ∧
  (∀ env pick w,
     ∃ w' res, export_all env pick w = Some (w', res) ∧ stats_le (stats w) (stats w')) ∧
  (∀ env a r w,
     stats (download_asset_step env (Created a r) w).1 !! r
       = Some (default {| downloaded_assets := 0; downloaded_size := 0;
                          start_time := clock env (ticks w) |} (stats w !! r))) ∧
  (∀ env t w,
     suspended t = true → dom (stats (download_asset_step env t w).1) = dom (stats w)) ∧
  (∀ repository_name token w,
     stats (get_components repository_name token w).1 = stats w).
Proof.
  split_and!.
  - apply step_stats_le.
  - intros env pick tasks w w' res Hg.
    apply (asyncio_gather_rel env (fun w w' => stats_le (stats w) (stats w')))
      with (pick := pick) (tasks := tasks) (res := res);
      [intros; apply stats_le_refl|intros; by eapply stats_le_trans
      |intros; apply step_stats_le|done].
  - intros env pick repository w.
    destruct (process_repository_total env pick repository w) as (w' & H & Hle & _). eauto.
  - intros env pick w.
    destruct (export_all_total env pick w) as (w' & res & H & Hle & _). eauto.
  - apply step_created_stats.
  - apply step_suspended_dom.
  - intros repository_name token w.
    destruct (get_components_spec repository_name token w) as (w1 & -> & _ & _ & Hst & _).
    done.
Qed.

(** ** Invariants of the event loop *)

Section LoopInvariants.

Variable env : Env.

(** A turn of the loop either finds nothing to resume or gives one suspended
    task its turn, in place. *)
Lemma resume_nth_insert k tasks w :
  resume_nth env k tasks w = (w, tasks) ∨
  ∃ i t, tasks !! i = Some t ∧ suspended t = true ∧
         resume_nth env k tasks w
           = ((download_asset_step env t w).1,
              <[i := (download_asset_step env t w).2]> tasks).
Proof.
  revert k. induction tasks as [|t rest IH]; intros k; [by left|]. simpl.
  destruct (suspended t) eqn:Hs.
  - destruct k as [|k].
    + right. exists 0%nat, t. split_and!; [done|done|].
      by destruct (download_asset_step env t w).
    + destruct (IH k) as [->|(i & t0 & Hi & Hs0 & ->)]; [by left|].
      right. exists (S i), t0. done.
  - destruct (IH k) as [->|(i & t0 & Hi & Hs0 & ->)]; [by left|].
    right. exists (S i), t0. done.
Qed.

Variable I : World → list Task → Prop.
Hypothesis I_turn : ∀ w tasks i t,
  I w tasks → tasks !! i = Some t → suspended t = true →
  I (download_asset_step env t w).1 (<[i := (download_asset_step env t w).2]> tasks).

Lemma run_loop_invariant pick fuel tasks w :
  I w tasks → I (run_loop env pick fuel tasks w).1 (run_loop env pick fuel tasks w).2.
Proof.
  revert tasks w. induction fuel as [|fuel IH]; intros tasks w HI; [done|].
  rewrite run_loop_S. destruct (in_flight tasks) as [|n]; [done|].
  remember (pick w tasks mod S n)%nat as k.
  destruct (resume_nth_insert k tasks w) as [->|(i & t & Hi & Hs & ->)].
  - by apply IH.
  - apply IH. by apply I_turn.
Qed.

End LoopInvariants.

(** ** The GETs of a batch *)

Lemma step_suspended_requests env t w :
  suspended t = true → requests (download_asset_step env t w).1 = requests w.
Proof. intros Hs. step_cases t; done. Qed.

Lemma start_tasks_requests env r batch w :
  requests (start_tasks env (created r batch) w).1
    = requests w
      ++ map (fun a => Get (downloadUrl a)) (List.filter (requested env (fs w) r) batch).
Proof.
  revert w. induction batch as [|a rest IH]; intros w; simpl; [by rewrite app_nil_r|].
  destruct (step_created env a r w) as (Ht & Hfs & _).
  assert (requests (download_asset_step env (Created a r) w).1
          = requests w ++ (if requested env (fs w) r a then [Get (downloadUrl a)] else []))
    as Hreq.
  { unfold requested, started.
    destruct (touch_frame env r w) as (_ & _ & _ & Hr & _).
    destruct (skip_test (fs w) a (full_path_of r (path a))) eqn:Hskip.
    - rewrite (step_created_skip env _ _ _ Hskip). simpl. by rewrite Hr, app_nil_r.
    - destruct (fs_fault env (Makedirs (os_path_dirname (full_path_of r (path a)))))
        as [e|] eqn:Hf.
      + rewrite (step_created_makedirs_fault env _ _ _ _ Hskip Hf). simpl.
        by rewrite Hr, app_nil_r.
      + rewrite (step_created_sent env _ _ _ Hskip Hf). simpl. by rewrite Hr. }
  destruct (download_asset_step env (Created a r) w) as [w1 t']. simpl in *.
  specialize (IH w1). fold (created r rest).
  destruct (start_tasks env (created r rest) w1) as [w2 rest']. simpl in *.
  rewrite IH, Hreq, Hfs, <- app_assoc.
  by destruct (requested env (fs w) r a).
Qed.

Lemma gather_requests env pick r batch w w' res :
  asyncio_gather env pick (created r batch) w = Some (w', res) →
  requests w'
    = requests w
      ++ map (fun a => Get (downloadUrl a)) (List.filter (requested env (fs w) r) batch).
Proof.
  intros Hg. unfold asyncio_gather in Hg.
  pose proof (start_tasks_requests env r batch w) as Hstart.
  destruct (start_tasks env (created r batch) w) as [w1 started1]. simpl in Hstart.
  assert (requests (run_loop env pick (total_turns env started1) started1 w1).1
          = requests w1) as Hrun.
  { apply (run_loop_invariant env (fun w _ => requests w = requests w1)); [|done].
    intros w0 tasks i t H _ Hs. simpl. by rewrite step_suspended_requests. }
  destruct (run_loop env pick (total_turns env started1) started1 w1) as [w2 done'].
  simpl in Hrun. destruct (forallb finished done'); [|done].
  injection Hg as <- _. by rewrite Hrun.
Qed.

(** X1. The GETs of a page's batch: one for each asset that is not skipped
    (and whose directory could be made), sent in the order of the assets,
    and none after that: no download is requested twice, whatever its
    response is and in whatever order responses arrive. *)
Theorem gather_sends_one_get_per_download (env : Env) (pick : World → list Task → nat)
    (r : string) (batch : list Asset) (w : World) :
  ∃ w', asyncio_gather env pick (created r batch) w = Some (w', Ok tt) ∧
        requests w'
          = requests w
            ++ map (fun a => Get (downloadUrl a))
                 (List.filter (requested env (fs w) r) batch) ∧
        ∀ a, requested env (fs w) r a
             = negb (skip_test (fs w) a (dest r a))
               && bool_decide (fs_fault env (Makedirs (os_path_dirname (dest r a))) = None).
Proof.
  destruct (gather_counters env pick r batch w) as (w' & Hg & _).
  exists w'. split; [done|]. split; [by eapply gather_requests|].
  intros a. unfold requested, started, dest.
  destruct (skip_test _ _ _); [done|].
  by destruct (fs_fault env _).
Qed.

(** ** The files of a batch *)

Lemma step_suspended_fs_other env t w p q :
  suspended t = true → task_path t = Some p → q ≠ p →
  fs (download_asset_step env t w).1 !! q = fs w !! q.
Proof.
  intros Hs Hp Hq. step_cases t; try done; by rewrite lookup_insert_ne.
Qed.

Lemma step_suspended_path env t w :
  suspended t = true →
  finished (download_asset_step env t w).2 = true ∨
  (suspended (download_asset_step env t w).2 = true ∧
   task_path (download_asset_step env t w).2 = task_path t ∧
   task_repo (download_asset_step env t w).2 = task_repo t).
Proof. intros Hs. step_cases t; auto. Qed.

Lemma write_at_end (written c : list byte) :
  write_at (length written) c written = written ++ c.
Proof.
  unfold write_at. rewrite Nat.sub_diag. simpl. rewrite app_nil_r.
  rewrite take_ge by lia. rewrite drop_ge by lia. by rewrite app_nil_r.
Qed.


Lemma iter_chunked_concat content : concat (iter_chunked CHUNK_SIZE content) = content.
Proof. apply chunked_concat; [unfold CHUNK_SIZE; lia|done]. Qed.


(** The task that is given a turn keeps its promise. *)
Lemma step_kept_self env r disk0 a t w :
  suspended t = true → is_Some (stats w !! r) →
  kept env r disk0 w a t →
  kept env r disk0 (download_asset_step env t w).1 a (download_asset_step env t w).2.
Proof.
  intros Hs [s Hstats] (Hshape & Htrack & Hskip).
  destruct Hshape as [Hf|(_ & Hpath & Hrepo)]; [by destruct t|].
  split_and!.
  - destruct (step_suspended_path env t w Hs) as [H|(H1 & H2 & H3)]; [by left|].
    right. by rewrite H2, H3.
  - intros b Hb. specialize (Htrack b Hb).
    destruct t as [|a' r' p|a' r' p pos chunks broken|]; try done;
      unfold task_repo in Hrepo; simpl in Hpath, Hrepo, Htrack; simplify_eq.
    + (* the response arrives: the file is opened, nothing written yet *)
      unfold outcome in Hb. fold (dest r a) in Hb.
      destruct (skip_test _ _ _); [done|].
      destruct (fs_fault env (Makedirs _)); [done|]. simpl in Hb.
      destruct (asset_reply env (downloadUrl a)) as [d|] eqn:Hreply; [|done].
      destruct (Z.eqb (dl_status d) 200) eqn:Hst; [|done]. apply Z.eqb_eq in Hst.
      destruct (fs_fault env (OpenWb _)) eqn:Hopen; [done|].
      destruct (stream_completes _ _ _ _ _) eqn:Hc; [|done].
      rewrite (step_response_ok env _ _ _ _ _ Hreply Hst Hopen). simpl.
      split; [done|]. exists []. rewrite lookup_insert_eq. split_and!; try done.
      unfold body. rewrite Hreply. apply iter_chunked_concat.
    + destruct Htrack as (Hc & written & Hfile & -> & Hbody).
      destruct chunks as [|c rest]; simpl in Hc.
      * destruct broken; [done|].
        rewrite (step_end_ok env _ _ _ _ _ _ Hstats). simpl.
        rewrite Hfile. by rewrite app_nil_r in Hbody; subst.
      * destruct (fs_fault env (WriteAt (dest r a) (length written))) eqn:Hw; [done|].
        rewrite (step_chunk_ok env _ _ _ _ _ _ _ _ _ Hw Hstats). simpl.
        split; [done|]. exists (written ++ c).
        rewrite lookup_insert_eq, Hfile. simpl. rewrite write_at_end.
        split_and!; [done|by rewrite length_app|].
        simpl in Hbody. by rewrite <- app_assoc.
  - intros Hsk. destruct (Hskip Hsk) as [Hf _]. by destruct t.
Qed.

(** The turn of another task, which writes elsewhere, breaks no promise. *)
Lemma step_kept_other env r disk0 a u t w p :
  suspended t = true → task_path t = Some p → p ≠ dest r a →
  kept env r disk0 w a u →
  kept env r disk0 (download_asset_step env t w).1 a u.
Proof.
  intros Hs Hp Hne (Hshape & Htrack & Hskip).
  assert (fs (download_asset_step env t w).1 !! dest r a = fs w !! dest r a) as Hfs
    by (by apply (step_suspended_fs_other env t w p)).
  split_and!; [done| |].
  - intros b Hb. specialize (Htrack b Hb).
    destruct u as [|a' r' p'|a' r' p' pos chunks broken|]; try done; simpl in *.
    + destruct Hshape as [?|(_ & Hpath & _)]; [done|]. simpl in Hpath. simplify_eq.
      by rewrite Hfs.
    + by rewrite Hfs.
  - intros Hsk. destruct (Hskip Hsk) as [Hf Hd]. split; [done|]. by rewrite Hfs.
Qed.

Section BatchFiles.

Variable env : Env.
Variable r : string.
Variable batch : list Asset.
Hypothesis distinct : NoDup (map (dest r) batch).

Lemma files_inv_turn w0 w tasks i t :
  files_inv env r batch w0 w tasks → tasks !! i = Some t → suspended t = true →
  files_inv env r batch w0 (download_asset_step env t w).1
            (<[i := (download_asset_step env t w).2]> tasks).
Proof.
  intros (Hstats & Hall & Hrest) Hi Hs.
  destruct (Forall2_lookup_r _ _ _ _ _ Hall Hi) as (a & Ha & Hkept).
  assert (batch ≠ []) as Hne0 by (intros Hnil; by rewrite Hnil in Ha).
  specialize (Hstats Hne0).
  assert (task_path t = Some (dest r a)) as Hpath.
  { destruct Hkept as ([Hf|(_ & Hp & _)] & _); [by destruct t|done]. }
  split_and!.
  - intros _. destruct Hstats as [s Hs0].
    destruct (step_stats_le env t w _ _ Hs0) as (s' & Hs' & _). eauto.
  - apply Forall2_same_length_lookup. split.
    { rewrite length_insert. by eapply Forall2_length. }
    intros j a' u Ha' Hu.
    destruct (decide (i = j)) as [<-|Hne].
    + rewrite list_lookup_insert_eq in Hu by (by eapply lookup_lt_Some).
      simplify_eq. by apply step_kept_self.
    + rewrite list_lookup_insert_ne in Hu by done.
      apply (step_kept_other env r (fs w0) a' u t w (dest r a)); try done.
      * intros Heq. apply Hne.
        apply (NoDup_lookup (map (dest r) batch) i j (dest r a)); [done| |].
        -- by rewrite list_lookup_fmap, Ha.
        -- by rewrite list_lookup_fmap, Ha', Heq.
      * eapply Forall2_lookup_lr; eauto.
  - intros q Hq. rewrite <- (Hrest q Hq).
    apply (step_suspended_fs_other env t w (dest r a)); [done|done|].
    intros ->. apply Hq. apply list_elem_of_fmap. exists a. split; [done|].
    by eapply list_elem_of_lookup_2.
Qed.

Lemma kept_fs w w' disk0 a t :
  fs w' = fs w → kept env r disk0 w a t → kept env r disk0 w' a t.
Proof.
  intros Hfs. unfold kept, on_track. rewrite Hfs. done.
Qed.

Lemma started_kept w a : kept env r (fs w) w a (started env (fs w) r a).
Proof.
  unfold kept, started, outcome. fold (dest r a).
  destruct (skip_test (fs w) a (dest r a)).
  - split_and!; [by left|done|done].
  - destruct (fs_fault env (Makedirs _)).
    + split_and!; [by left|done|done].
    + split_and!; [by right|done|].
      simpl. destruct (asset_reply env (downloadUrl a)) as [d|]; [|done].
      destruct (Z.eqb (dl_status d) 200); [|done].
      destruct (fs_fault env (OpenWb _)); [done|].
      by destruct (stream_completes _ _ _ _ _).
Qed.

(** The files a batch with distinct destinations leaves, whatever the order
    of events: the body for every download that completes, the old file for
    every asset that is skipped, and every other file as it was. *)
Lemma gather_files pick w :
  ∃ w', asyncio_gather env pick (created r batch) w = Some (w', Ok tt) ∧
        (∀ a b, a ∈ batch → outcome env (fs w) r a = Downloaded b →
                fs w' !! dest r a = Some (body env a)) ∧
        (∀ a, a ∈ batch → outcome env (fs w) r a = Skipped →
              fs w' !! dest r a = fs w !! dest r a) ∧
        (∀ q, q ∉ map (dest r) batch → fs w' !! q = fs w !! q).
Proof.
  destruct (gather_counters env pick r batch w) as (w' & Hg & _).
  exists w'. split; [done|].
  unfold asyncio_gather in Hg.
  destruct (start_tasks_created env r batch w) as (S1 & S2 & _ & S4 & _).
  destruct (start_tasks env (created r batch) w) as [w1 tasks1]. simpl in *. subst tasks1.
  assert (files_inv env r batch w w1 (map (started env (fs w) r) batch)) as Hinv0.
  { split_and!; [done| |by rewrite S2].
    apply Forall2_fmap_r, Forall_Forall2_diag, Forall_forall.
    intros a _. apply (kept_fs w); [done|apply started_kept]. }
  remember (map (started env (fs w) r) batch) as tasks1.
  assert (files_inv env r batch w (run_loop env pick (total_turns env tasks1) tasks1 w1).1
            (run_loop env pick (total_turns env tasks1) tasks1 w1).2) as Hinv.
  { apply (run_loop_invariant env (files_inv env r batch w)); [|done].
    intros; by apply files_inv_turn. }
  destruct (run_loop env pick (total_turns env tasks1) tasks1 w1) as [w2 tasks2].
  simpl in Hinv. destruct (forallb finished tasks2) eqn:Hfin; [|done].
  injection Hg as <-. destruct Hinv as (_ & Hall & Hrest).
  assert (∀ a, a ∈ batch → ∃ t, finished t = true ∧ kept env r (fs w) w2 a t) as Hk.
  { intros a [i Hi]%list_elem_of_lookup_1.
    destruct (Forall2_lookup_l _ _ _ _ _ Hall Hi) as (t & Ht & Hkept).
    exists t. split; [|done].
    rewrite forallb_forall in Hfin. apply Hfin.
    apply list_elem_of_In. by eapply list_elem_of_lookup_2. }
  split_and!; [| |done].
  - intros a b Ha Hb. destruct (Hk a Ha) as (t & Hf & _ & Htrack & _).
    specialize (Htrack b Hb). by destruct t.
  - intros a Ha Hsk. destruct (Hk a Ha) as (t & Hf & _ & _ & Hskip).
    by destruct (Hskip Hsk).
Qed.

End BatchFiles.







(** ** The requests of a whole run *)

Section RunRequests.

Variable env : Env.
Variable pick : World → list Task → nat.





(** What [get_repositories] leaves behind. *)
Lemma get_repositories_frame w :
  requests (get_repositories env w).1 = requests w ++ [Get listing_url] ∧
  stats (get_repositories env w).1 = stats w ∧
  fs (get_repositories env w).1 = fs w ∧
  stdout (get_repositories env w).1 = stdout w ∧
  pending_pages (get_repositories env w).1 = pending_pages w ∧
  ticks (get_repositories env w).1 = ticks w ∧
  (∀ repos, (get_repositories env w).2 = Ok repos ↔ listed env repos) ∧
  match (get_repositories env w).2 with
  | Ok _ => log (get_repositories env w).1 = log w
  | Raise e =>
      errors (log (get_repositories env w).1)
        = errors (log w) ++ [Lit "Error getting repositories: " :: str e] ∨
      ∃ msg, errors (log (get_repositories env w).1)
               = errors (log w) ++ [msg; Lit "Error getting repositories: " :: str e]
  end.
Proof.
  unfold get_repositories, try_except, bind, session_send, await, logging_error, ret, raise,
    listed.
  destruct (repositories_reply env) as [response|e]; simpl.
  - destruct (Z.eqb (status response) 200) eqn:Hst; simpl.
    + apply Z.eqb_eq in Hst. destruct (json response) as [repos|e] eqn:Hj; simpl.
      * split_and!; try done. intros repos'. split.
        -- intros [= <-]. eauto.
        -- intros (response' & [= <-] & _ & H). congruence.
      * split_and!; try done.
        -- intros repos'. split; [done|]. intros (response' & [= <-] & _ & H). congruence.
        -- left. by rewrite errors_app.
    + apply Z.eqb_neq in Hst. destruct (resp_text response) as [body0|e]; simpl.
      * split_and!; try done.
        -- intros repos'. split; [done|]. intros (response' & [= <-] & H & _). done.
        -- right. eexists. rewrite !errors_app. simpl. by rewrite <- app_assoc.
      * split_and!; try done.
        -- intros repos'. split; [done|]. intros (response' & [= <-] & H & _). done.
        -- left. by rewrite errors_app.
  - split_and!; try done.
    + intros repos'. split; [done|]. intros (response' & H & _). done.
    + left. by rewrite errors_app.
Qed.

(** [export_all] once the output directory is there. *)
Lemma export_all_unfold w :
  fs_fault env (Makedirs BASE_OUTPUT_DIR) = None →
  export_all env pick w =
  match get_repositories env w with
  | (w0, Ok []) =>
      Some (set_stdout
              (fun l => l ++ [[Lit "No repositories found or failed to get repositories list."]])
              w0, Ok tt)
  | (w0, Ok (repo :: rest)) => for_each_repository env pick (repo :: rest) w0
  | (w0, Raise e) =>
      Some (set_stdout (fun l => l ++ [Lit "Error occurred: " :: str e])
              (set_log (fun l => l ++ [(ERROR, Lit "Error in export_all: " :: str e)]) w0),
            Ok tt)
  end.
Proof.
  intros Hf. unfold export_all, pbind at 1, lift at 1, os_makedirs. rewrite Hf.
  unfold p_try_except, pbind, lift at 1.
  destruct (get_repositories env w) as [w0 [[|repo rest]|e]]; try done.
  destruct (for_each_repository_total env pick (repo :: rest) w0) as (w' & -> & _). done.
Qed.

End RunRequests.






Lemma main_unfold env pick w :
  main env pick w =
  match export_all env pick (launched w) with
  | Some (w1, Ok _) =>
      Some (overall_summary (clock env (ticks w1) - clock env (ticks w))%Q
              (set_ticks (S (ticks w1)) w1))
  | Some (w1, Raise e) => Some (w1, Raise e)
  | None => None
  end.
Proof. reflexivity. Qed.

Lemma overall_summary_frame duration w :
  requests (overall_summary duration w).1 = requests w ∧
  pending_pages (overall_summary duration w).1 = pending_pages w ∧
  fs (overall_summary duration w).1 = fs w ∧
  errors (log (overall_summary duration w).1) = errors (log w).
Proof.
  unfold overall_summary, bind, print, logging_info, ret. simpl.
  destruct (Qle_bool duration 0); simpl; split_and!; try done;
    rewrite errors_app; simpl; by rewrite app_nil_r.
Qed.

(** X6. A listing that cannot be fetched does not stop the program: the
    error is logged and printed, no page and no asset is requested, [main]
    returns normally and its final summary reports no repository, no file
    and no byte. *)
Theorem main_survives_a_failed_listing (env : Env) (pick : World → list Task → nat)
    (w : World) :
  listing_fails env →
  fs_fault env (Makedirs BASE_OUTPUT_DIR) = None →
  ∃ w' e out duration,
    main env pick w = Some (w', Ok tt) ∧
    (get_repositories env (launched w)).2 = Raise e ∧
    requests w' = requests w ++ [Get listing_url] ∧
    pending_pages w' = pending_pages w ∧
    stats w' = ∅ ∧
    last (errors (log w')) = Some (Lit "Error in export_all: " :: str e) ∧
    stdout w' = out ++ [Lit "Error occurred: " :: str e] ++ overall_lines ∅ duration ∧
    total_files (stats w') = 0 ∧ total_size (stats w') = 0 ∧ size (stats w') = 0%nat.
Proof.
  intros Hfails Hf.
  rewrite main_unfold, (export_all_unfold env pick _ Hf).
  destruct (get_repositories_frame env (launched w))
    as (Hreq & Hs0 & _ & Hout0 & Hpend & _ & Hiff & _).
  assert (∃ e, (get_repositories env (launched w)).2 = Raise e) as [e He].
  { destruct (get_repositories env (launched w)).2 as [repos|e] eqn:Hres0; [|eauto].
    exfalso. destruct (proj1 (Hiff repos) eq_refl) as (response & Hr & Hs & Hj).
    unfold listing_fails in Hfails. rewrite Hr in Hfails.
    destruct Hfails as [?|[e' He']]; [done|congruence]. }
  destruct (get_repositories env (launched w)) as [w0 res0]. simpl in *. subst res0.
  set (w1 := set_ticks _ _).
  set (duration := (clock env (ticks w0) - clock env (ticks w))%Q).
  destruct (overall_summary_spec duration w1) as (w' & Hw' & Hst & Hout).
  destruct (overall_summary_frame duration w1) as (Fr & Fp & _ & Fe).
  rewrite Hw' in *. simpl in *.
  assert (stats w' = ∅) as Hempty by (by rewrite Hst, Hs0).
  exists w', e, (stdout w0), duration.
  split_and!.
  - fold duration. by rewrite Hw'.
  - done.
  - by rewrite Fr, Hreq.
  - by rewrite Fp, Hpend.
  - done.
  - rewrite Fe, errors_app. simpl. by rewrite last_snoc.
  - rewrite Hout, Hs0. by rewrite <- app_assoc.
  - by rewrite Hempty.
  - by rewrite Hempty.
  - by rewrite Hempty.
Qed.

Lemma main_survives_a_failed_listing_witness :
  ∃ w' e out duration,
    main (listing 503 (Raise unreachable) "Service Unavailable") (fun _ _ => 0%nat)
      fresh_world = Some (w', Ok tt) ∧
    (get_repositories (listing 503 (Raise unreachable) "Service Unavailable")
       (launched fresh_world)).2 = Raise e ∧
    requests w' = requests fresh_world ++ [Get listing_url] ∧
    pending_pages w' = pending_pages fresh_world ∧
    stats w' = ∅ ∧
    last (errors (log w')) = Some (Lit "Error in export_all: " :: str e) ∧
    stdout w' = out ++ [Lit "Error occurred: " :: str e] ++ overall_lines ∅ duration ∧
    total_files (stats w') = 0 ∧ total_size (stats w') = 0 ∧ size (stats w') = 0%nat.
Proof.
  apply (main_survives_a_failed_listing (listing 503 (Raise unreachable) "Service Unavailable")
           (fun _ _ => 0%nat) fresh_world).
  - left. discriminate.
  - reflexivity.
Defined.

(** X7. When the output directory cannot be made, nothing else happens: the
    exception leaves [export_all] and [main] before any request is sent,
    nothing is logged, and no summary is printed. *)
Theorem main_stops_without_output_directory (env : Env) (pick : World → list Task → nat)
    (w : World) (e : exn) :
  fs_fault env (Makedirs BASE_OUTPUT_DIR) = Some e →
  export_all env pick w = Some (w, Raise e) ∧
  ∃ w', main env pick w = Some (w', Raise e) ∧
        requests w' = requests w ∧ log w' = log w ∧ stats w' = ∅ ∧
        stdout w' = stdout w ++ [[Lit "Starting Nexus export from: "; StrV NEXUS_URL];
                                 [Lit "Base output directory: "; StrV BASE_OUTPUT_DIR]].
Proof.
  intros Hf.
  assert (∀ w0, export_all env pick w0 = Some (w0, Raise e)) as Hex.
  { intros w0. unfold export_all, pbind at 1, lift at 1, os_makedirs. by rewrite Hf. }
  split; [apply Hex|].
  rewrite main_unfold, Hex. eexists. split; [done|]. simpl.
  split_and!; try done. by rewrite <- app_assoc.
Qed.

Lemma main_stops_without_output_directory_witness :
  export_all read_only_disk (fun _ _ => 0%nat) fresh_world
    = Some (fresh_world, Raise (Exception [Lit "Read-only file system"])) ∧
  ∃ w', main read_only_disk (fun _ _ => 0%nat) fresh_world
          = Some (w', Raise (Exception [Lit "Read-only file system"])) ∧
        requests w' = requests fresh_world ∧ log w' = log fresh_world ∧ stats w' = ∅ ∧
        stdout w' = stdout fresh_world
                      ++ [[Lit "Starting Nexus export from: "; StrV NEXUS_URL];
                          [Lit "Base output directory: "; StrV BASE_OUTPUT_DIR]].
Proof.
  apply (main_stops_without_output_directory read_only_disk (fun _ _ => 0%nat) fresh_world
           (Exception [Lit "Read-only file system"])).
  reflexivity.
Defined.

(** X8. With an empty listing [export_all] prints that no repository was
    found and returns: the listing request is the only one it sends, and
    nothing is logged, counted, written or read from the components
    endpoint. *)
Theorem export_all_with_empty_listing (env : Env) (pick : World → list Task → nat)
    (w : World) :
  listed env [] →
  fs_fault env (Makedirs BASE_OUTPUT_DIR) = None →
  ∃ w', export_all env pick w = Some (w', Ok tt) ∧
        stdout w' = stdout w
                      ++ [[Lit "No repositories found or failed to get repositories list."]] ∧
        requests w' = requests w ++ [Get listing_url] ∧
        log w' = log w ∧ stats w' = stats w ∧ fs w' = fs w ∧
        pending_pages w' = pending_pages w.
Proof.
  intros Hlisted Hf. rewrite (export_all_unfold env pick w Hf).
  destruct (get_repositories_frame env w)
    as (Hreq & Hst & Hfs & Hout & Hpend & _ & Hiff & Hlog).
  apply Hiff in Hlisted. rewrite Hlisted in Hlog.
  destruct (get_repositories env w) as [w0 res]. cbn [fst snd] in *. subst res.
  eexists. split; [done|]. simpl. by rewrite Hout.
Qed.

Lemma export_all_with_empty_listing_witness :
  ∃ w', export_all empty_listing (fun _ _ => 0%nat) (answering [last_page])
          = Some (w', Ok tt) ∧
        stdout w' = stdout (answering [last_page])
                      ++ [[Lit "No repositories found or failed to get repositories list."]] ∧
        requests w' = requests (answering [last_page]) ++ [Get listing_url] ∧
        log w' = log (answering [last_page]) ∧ stats w' = stats (answering [last_page]) ∧
        fs w' = fs (answering [last_page]) ∧
        pending_pages w' = pending_pages (answering [last_page]).
Proof.
  apply (export_all_with_empty_listing empty_listing (fun _ _ => 0%nat)
           (answering [last_page])).
  - eexists. split_and!; reflexivity.
  - reflexivity.
Defined.

(** X9. A repository whose directory cannot be made is given up at once:
    [process_repository] logs one error and returns normally, without any
    request, without reading a reply of the components endpoint and without
    touching the statistics or the disk; the repositories after it are
    processed as if it had not been listed. *)
Theorem unusable_directory_skips_repository (env : Env) (pick : World → list Task → nat)
    (repository : Repository) (rest : list Repository) (w : World) (e : exn) :
  fs_fault env (Makedirs (os_path_join BASE_OUTPUT_DIR [name repository])) = Some e →
  ∃ w', process_repository env pick repository w = Some (w', Ok tt) ∧
        requests w' = requests w ∧ pending_pages w' = pending_pages w ∧
        stats w' = stats w ∧ fs w' = fs w ∧
        errors (log w')
          = errors (log w) ++ [[Lit "Error processing repository "; StrV (name repository);
                                Lit ": "] ++ str e] ∧
        for_each_repository env pick (repository :: rest) w
          = for_each_repository env pick rest w'.
Proof.
  intros Hf.
  pose proof (process_repository_spec env pick repository w) as H. cbv zeta in H.
  rewrite Hf in H.
  eexists. split; [exact H|]. simpl. split_and!; try done.
  - rewrite !errors_app. simpl. by rewrite app_nil_r.
  - unfold pbind at 1. by rewrite H.
Qed.

Lemma unusable_directory_skips_repository_witness :
  ∃ w', process_repository read_only_disk (fun _ _ => 0%nat) {| name := "releases" |}
          (answering [last_page]) = Some (w', Ok tt) ∧
        requests w' = requests (answering [last_page]) ∧
        pending_pages w' = pending_pages (answering [last_page]) ∧
        stats w' = stats (answering [last_page]) ∧ fs w' = fs (answering [last_page]) ∧
        errors (log w')
          = errors (log (answering [last_page]))
            ++ [[Lit "Error processing repository "; StrV (name {| name := "releases" |});
                 Lit ": "] ++ str (Exception [Lit "Read-only file system"])] ∧
        for_each_repository read_only_disk (fun _ _ => 0%nat)
          ({| name := "releases" |} :: [ {| name := "snapshots" |} ]) (answering [last_page])
          = for_each_repository read_only_disk (fun _ _ => 0%nat)
              [ {| name := "snapshots" |} ] w'.
Proof.
  apply (unusable_directory_skips_repository read_only_disk (fun _ _ => 0%nat)
           {| name := "releases" |} [ {| name := "snapshots" |} ] (answering [last_page])
           (Exception [Lit "Read-only file system"])).
  reflexivity.
Defined.

(** X10. [get_components] never raises.  Each call sends one GET and uses up
    one reply.  It hands back the page of the server, and logs nothing,
    exactly when the status is 200 and the body parses; a body that does not
    parse, any other status and a failed request all give the empty page
    and one error in the log.  The statistics, the disk and the console are
    not touched. *)
Theorem get_components_never_raises (repository_name : string) (token : option string)
    (w : World) :
  ∃ w' page,
    get_components repository_name token w = (w', Ok page) ∧
    requests w' = requests w ++ [components_request repository_name token] ∧
    pending_pages w' = tail (pending_pages w) ∧
    stats w' = stats w ∧ fs w' = fs w ∧ stdout w' = stdout w ∧
    match head (pending_pages w) with
    | Some (Ok response) =>
        if Z.eqb (status response) 200 then
          match json response with
          | Ok sent => page = sent ∧ log w' = log w
          | Raise e =>
              page = empty_page ∧
              log w' = log w ++ [(ERROR, Lit "Error getting components: " :: str e)]
          end
        else page = empty_page ∧ ∃ msg, log w' = log w ++ [(ERROR, msg)]
    | Some (Raise e) =>
        page = empty_page ∧
        log w' = log w ++ [(ERROR, Lit "Error getting components: " :: str e)]
    | None => page = empty_page ∧ ∃ msg, log w' = log w ++ [(ERROR, msg)]
    end.
Proof.
  unfold get_components, try_except, bind, session_send, next_page_reply, await,
    logging_error, ret, raise, components_request.
  destruct w as [st ex disk lg out rqs pend tk]; simpl.
  destruct pend as [|[response|e] rest]; simpl.
  - eexists _, _; split_and!; try done. eauto.
  - destruct (Z.eqb (status response) 200) eqn:Hst; simpl.
    + destruct (json response) as [page|e]; simpl; eexists _, _; split_and!; done.
    + destruct (resp_text response) as [body0|e]; simpl;
        eexists _, _; split_and!; try done; eauto.
  - eexists _, _; split_and!; done.
Qed.

(** ** The log as an audit trail *)







Section AuditTrail.

Variable env : Env.
Variable pick : World → list Task → nat.
Variable r : string.












End AuditTrail.



(** ** Destinations *)

Lemma dest_absolute r a : startswith_slash (path a) = true → dest r a = path a.
Proof.
  intros H. unfold dest, full_path_of, os_path_join. cbn [fold_left].
  unfold join_step at 1. by rewrite H.
Qed.

(** X12. The destination of an asset whose path starts with a slash is that
    path itself: the output directory and the repository name are dropped by
    [os.path.join].  When its download completes, the body is written there,
    outside [nexus_artifacts]. *)
Theorem absolute_path_leaves_output_directory (env : Env)
    (pick : World → list Task → nat) (r : string) (a : Asset) (b : Z) (w : World) :
  startswith_slash (path a) = true →
  outcome env (fs w) r a = Downloaded b →
  dest r a = path a ∧
  String.prefix BASE_OUTPUT_DIR (dest r a) = false ∧
  ∃ w', asyncio_gather env pick (created r [a]) w = Some (w', Ok tt) ∧
        fs w' !! path a = Some (body env a).
Proof.
  intros Habs Hout.
  pose proof (dest_absolute r a Habs) as Hdest.
  split; [done|]. split.
  - rewrite Hdest. destruct (path a) as [|c s]; [done|].
    simpl in Habs. apply Ascii.eqb_eq in Habs. by subst c.
  - assert (NoDup (map (dest r) [a])) as Hnd by (apply NoDup_singleton).
    destruct (gather_files env r [a] Hnd pick w) as (w' & Hg & Hd & _).
    exists w'. split; [done|]. rewrite <- Hdest.
    eapply Hd; [apply list_elem_of_here|exact Hout].
Qed.

Lemma absolute_path_leaves_output_directory_witness :
  dest "releases" stray = "/etc/cron.d/job" ∧
  String.prefix BASE_OUTPUT_DIR (dest "releases" stray) = false ∧
  ∃ w', asyncio_gather (serving 200 [x01; x01; x01] None) (fun _ _ => 0%nat)
          (created "releases" [stray]) fresh_world = Some (w', Ok tt) ∧
        fs w' !! "/etc/cron.d/job" = Some (body (serving 200 [x01; x01; x01] None) stray).
Proof.
  apply (absolute_path_leaves_output_directory (serving 200 [x01; x01; x01] None)
           (fun _ _ => 0%nat) "releases" stray 3 fresh_world).
  - reflexivity.
  - vm_compute. reflexivity.
Defined.

(** ** What an interrupted download leaves *)







Section PartialFiles.

Variable env : Env.
Variable r : string.
Variable batch : list Asset.
Hypothesis distinct : NoDup (map (dest r) batch).




End PartialFiles.



